(** * super_gradients: ONNX graph stitching, shape refinement and EMA decay schedules

    A shallow embedding of

      - [super_gradients/conversion/onnx/utils.py]
          ([append_graphs], [iteratively_infer_shapes]) and
      - [super_gradients/training/utils/ema_decay_schedules.py]
          ([ConstantDecay], [ThresholdDecay], [ExpDecay]).

    Python objects live in a heap indexed by references, so that the
    difference between mutating an object in place and rebinding a local
    variable is visible.  Exceptions and the logger are explicit.  The
    [onnx_graphsurgeon] and [onnx] calls are parameters of the development:
    nothing is assumed about them beyond their calling convention, and every
    property that needs more says so in a hypothesis.

    [append_graphs] is modelled twice: with each graph holding its lists, and
    with the lists as objects that graphs can share.  The schedules are
    modelled twice as well: over the reals, and over an arithmetic with the
    errors and the rounding of Python floats, of which binary64 is one. *)

From Stdlib Require Import ZArith List String Ascii Permutation DecimalString.
From Stdlib Require Import Reals Lra Lia.
From Stdlib Require Import SpecFloat.
From stdpp Require Import base gmap list strings.

Local Open Scope string_scope.
Local Open Scope nat_scope.

(** ** Data model *)

(** A [gs.Tensor]: a named value slot, its shape optional. *)
Record Tensor := mkTensor {
  tensor_name : string;
  tensor_shape : option (list Z)
}.

(** A [gs.Node]: operator type, name, ordered inputs and outputs. *)
Record Node := mkNode {
  node_op : string;
  node_name : string;
  node_inputs : list Tensor;
  node_outputs : list Tensor
}.

(** A [gs.Graph]: the three lists the source reads and writes.  The lists
    are held by value here; the module [ByReference] below has them as
    objects, for what depends on two graphs holding the same list. *)
Record Graph := mkGraph {
  nodes : list Node;
  inputs : list Tensor;
  outputs : list Tensor
}.

Definition set_nodes (l : list Node) (g : Graph) : Graph :=
  mkGraph l (inputs g) (outputs g).

Definition set_outputs (l : list Tensor) (g : Graph) : Graph :=
  mkGraph (nodes g) (inputs g) l.

(** References to graph objects, and the values a call can hand back. *)
Definition ref := nat.

Inductive pyval :=
  | VNone
  | VGraph (r : ref).

(** ** Exceptions and logging *)

(** The exception classes the two handlers of the source tell apart.  All of
    them derive from [Exception]; none is a subclass of another. *)
Inductive exn_class :=
  | ValueError
  | TypeError
  | ZeroDivisionError
  | OverflowError
  | RuntimeError.

Record exn := mkExn {
  exn_cls : exn_class;
  exn_msg : string
}.

(** [except Exception] matches every class above. *)
Definition is_Exception (e : exn) : bool := true.

(** [except TypeError]. *)
Definition is_TypeError (e : exn) : bool :=
  match exn_cls e with
  | TypeError => true
  | _ => false
  end.

Inductive log_level := DEBUG | ERROR.

Record log_record := mkLog {
  log_level_of : log_level;
  log_msg : string
}.

(** [str(n)] for a Python int. *)
Definition str_nat (n : nat) : string := NilZero.string_of_uint (Nat.to_uint n).
Definition str_Z (z : Z) : string := NilZero.string_of_int (Z.to_int z).

(** ** Interpreter state and the monad of effects *)

(** [heap] holds the graph objects, [log] what the module logger received
    (oldest first) and [passes] is a ghost counter: it is bumped at the top of
    each iteration of the loop of [iteratively_infer_shapes] and read by
    nothing. *)
Record state := mkState {
  heap : gmap ref Graph;
  log : list log_record;
  passes : nat
}.

Definition set_heap (h : gmap ref Graph) (s : state) : state :=
  mkState h (log s) (passes s).

(** How a computation ends.  [Stuck] is a dereference of a reference that is
    not in the heap (no Python program does that); [OutOfFuel] is a loop that
    was still running when its fuel ran out. *)
Inductive outcome (A : Type) :=
  | Return (a : A)
  | Raise (e : exn)
  | Stuck
  | OutOfFuel.
Arguments Return {A} a.
Arguments Raise {A} e.
Arguments Stuck {A}.
Arguments OutOfFuel {A}.

Definition M (A : Type) : Type := state -> outcome A * state.

Definition ret {A} (a : A) : M A := fun s => (Return a, s).

Definition bind {A B} (c : M A) (k : A -> M B) : M B :=
  fun s =>
    match c s with
    | (Return a, s') => k a s'
    | (Raise e, s') => (Raise e, s')
    | (Stuck, s') => (Stuck, s')
    | (OutOfFuel, s') => (OutOfFuel, s')
    end.

Declare Scope py_scope.
Delimit Scope py_scope with py.
Notation "x <- c ;; k" := (bind c (fun x => k))
  (at level 100, c at next level, right associativity) : py_scope.
Notation "c ;;; k" := (bind c (fun _ => k))
  (at level 100, right associativity) : py_scope.
Local Open Scope py_scope.

Definition raise {A} (e : exn) : M A := fun s => (Raise e, s).
Definition out_of_fuel {A} : M A := fun s => (OutOfFuel, s).

(** [try: c  except <catches> as e: h e].  An exception that the clause does
    not match goes on to the caller; the handler runs in the state the
    exception left behind. *)
Definition try_except {A} (c : M A) (catches : exn -> bool) (h : exn -> M A) : M A :=
  fun s =>
    match c s with
    | (Raise e, s') => if catches e then h e s' else (Raise e, s')
    | r => r
    end.

(** Reading and updating the object behind a reference. *)
Definition get_graph (r : ref) : M Graph :=
  fun s =>
    match heap s !! r with
    | Some g => (Return g, s)
    | None => (Stuck, s)
    end.

Definition put_graph (r : ref) (g : Graph) : M unit :=
  fun s => (Return tt, set_heap (<[r := g]> (heap s)) s).

Definition modify_graph (r : ref) (f : Graph -> Graph) : M unit :=
  g <- get_graph r ;; put_graph r (f g).

(** A new object gets a reference that is not in use. *)
Definition alloc_graph (g : Graph) : M ref :=
  fun s =>
    let r := fresh (dom (heap s)) in
    (Return r, set_heap (<[r := g]> (heap s)) s).

Definition logger (lvl : log_level) (msg : string) : M unit :=
  fun s => (Return tt, mkState (heap s) (log s ++ [mkLog lvl msg]) (passes s)).

Definition tick : M unit :=
  fun s => (Return tt, mkState (heap s) (log s) (S (passes s))).

(** A method of the graph library called on the object behind [r]: it may
    change the object and may raise; what it changed before raising stays. *)
Definition call_method (m : Graph -> Graph * option exn) (r : ref) : M unit :=
  g <- get_graph r ;;
  put_graph r (m g).1 ;;;
  match (m g).2 with
  | Some e => raise e
  | None => ret tt
  end.

(** [for x in l: body x] over a list that the body does not touch. *)
Fixpoint for_each {A} (l : list A) (body : A -> M unit) : M unit :=
  match l with
  | [] => ret tt
  | x :: l' => body x ;;; for_each l' body
  end.

(** ** [append_graphs] *)

(** [f"Identity_{out.name}_{inp.name}"] and the node built on line 27. *)
Definition identity_name (out inp : Tensor) : string :=
  "Identity_" ++ tensor_name out ++ "_" ++ tensor_name inp.

Definition identity_node (out inp : Tensor) : Node :=
  mkNode "Identity" (identity_name out inp) [out] [inp].

Definition mismatch_msg (n_out n_in : nat) : string :=
  "Number of outputs (" ++ str_nat n_out ++
  ") does not match number of inputs (" ++ str_nat n_in ++ ")".

(** [list.append] on the node list of the object behind [r]. *)
Definition nodes_append (r : ref) (n : Node) : M unit :=
  modify_graph r (fun g => set_nodes (nodes g ++ [n]) g).

(** Lines 22-23, [for node in graph2.nodes: merged_graph.nodes.append(node)].
    A Python list iterator keeps an index and looks the list up again at
    every step, so the loop is written that way: [i] is the iterator's index
    and the list is re-read from the heap each time round.  When the two
    references are the same object the list grows as fast as it is read. *)
Fixpoint extend_nodes (fuel : nat) (i : nat) (graph2 merged_graph : ref) : M unit :=
  match fuel with
  | O => out_of_fuel
  | S fuel' =>
      g2 <- get_graph graph2 ;;
      match nodes g2 !! i with
      | None => ret tt
      | Some node =>
          nodes_append merged_graph node ;;;
          extend_nodes fuel' (S i) graph2 merged_graph
      end
  end.

(** ** The graph library *)

(** What the source calls from [onnx_graphsurgeon] and [onnx].  [Model] is
    the interchange form ([onnx.ModelProto]).  The three methods work on the
    graph object they are called on; [gs_fold_constants] is
    [fold_constants(fold_shapes=True)].  Export, inference and import read
    their argument and build a new value, or raise. *)
Class GraphLibrary := {
  Model : Type;
  gs_cleanup : Graph -> Graph * option exn;
  gs_toposort : Graph -> Graph * option exn;
  gs_fold_constants : Graph -> Graph * option exn;
  gs_export_onnx : Graph -> exn + Model;
  infer_shapes : Model -> exn + Model;
  gs_import_onnx : Model -> exn + Graph
}.

(** The result of a library function in the monad. *)
Definition lift_result {A} (r : exn + A) : M A :=
  match r with
  | inl e => raise e
  | inr a => ret a
  end.

Definition append_graphs {L : GraphLibrary} (fuel : nat) (graph1 graph2 : ref) : M pyval :=
  g1 <- get_graph graph1 ;;
  g2 <- get_graph graph2 ;;
  if negb (length (outputs g1) =? length (inputs g2)) then
    raise (mkExn ValueError (mismatch_msg (length (outputs g1)) (length (inputs g2))))
  else
    let merged_graph := graph1 in
    extend_nodes fuel 0 graph2 merged_graph ;;;
    (* Actual stitching of the graphs *)
    g1 <- get_graph graph1 ;;
    g2 <- get_graph graph2 ;;
    for_each (zip (outputs g1) (inputs g2))
      (fun '(out, inp) => nodes_append merged_graph (identity_node out inp)) ;;;
    modify_graph merged_graph (set_outputs []) ;;;
    g2 <- get_graph graph2 ;;
    modify_graph merged_graph (set_outputs (outputs g2)) ;;;
    call_method gs_toposort merged_graph ;;;
    ret (VGraph merged_graph).

(** ** [append_graphs], with the lists as objects *)

(** Above, a graph holds its three lists by value, so no two graphs share
    one.  Python shares: [gs.Graph(nodes=l)] keeps the list [l] itself, and
    two graphs built on it see each other's appends.  Here the lists are
    objects of their own and a graph object holds three references.  A list
    of nodes and a list of tensors are never the same object.

    Two things are up to the library, and the model takes them as
    parameters.  [copies] says what the assignment
    [merged_graph.outputs = graph2.outputs] stores, which is decided by
    [Graph.__setattr__]: the list it is given ([false]) or a new list with
    the same elements ([true]).  [rebinds] says how [toposort] delivers the
    sorted nodes: in a new list assigned to [graph.nodes] ([true]) or in the
    list that is there ([false]).  Of the graph that the library's [toposort]
    computes, only the node list is taken. *)
Module ByReference.

Record graph_object := mkObject {
  nodes_at : ref;
  inputs_at : ref;
  outputs_at : ref
}.

Record store := mkStore {
  graphs : gmap ref graph_object;
  node_lists : gmap ref (list Node);
  tensor_lists : gmap ref (list Tensor)
}.

Definition St (A : Type) : Type := store -> outcome A * store.

Definition ret {A} (a : A) : St A := fun s => (Return a, s).

Definition bind {A B} (c : St A) (k : A -> St B) : St B :=
  fun s =>
    match c s with
    | (Return a, s') => k a s'
    | (Raise e, s') => (Raise e, s')
    | (Stuck, s') => (Stuck, s')
    | (OutOfFuel, s') => (OutOfFuel, s')
    end.

Declare Scope by_ref_scope.
Delimit Scope by_ref_scope with by_ref.
Notation "x <- c ;; k" := (bind c (fun x => k))
  (at level 100, c at next level, right associativity) : by_ref_scope.
Notation "c ;;; k" := (bind c (fun _ => k))
  (at level 100, right associativity) : by_ref_scope.
Local Open Scope by_ref_scope.

Definition raise {A} (e : exn) : St A := fun s => (Raise e, s).
Definition out_of_fuel {A} : St A := fun s => (OutOfFuel, s).

Definition get_object (graph : ref) : St graph_object :=
  fun s =>
    match graphs s !! graph with
    | Some o => (Return o, s)
    | None => (Stuck, s)
    end.

Definition get_nodes (l : ref) : St (list Node) :=
  fun s =>
    match node_lists s !! l with
    | Some ns => (Return ns, s)
    | None => (Stuck, s)
    end.

Definition get_tensors (l : ref) : St (list Tensor) :=
  fun s =>
    match tensor_lists s !! l with
    | Some ts => (Return ts, s)
    | None => (Stuck, s)
    end.

(** A change of a list object, in place. *)
Definition put_nodes (l : ref) (ns : list Node) : St unit :=
  fun s => (Return tt, mkStore (graphs s) (<[l := ns]> (node_lists s)) (tensor_lists s)).

Definition put_tensors (l : ref) (ts : list Tensor) : St unit :=
  fun s => (Return tt, mkStore (graphs s) (node_lists s) (<[l := ts]> (tensor_lists s))).

(** A new list object. *)
Definition alloc_tensors (ts : list Tensor) : St ref :=
  fun s =>
    let l := fresh (dom (tensor_lists s)) in
    (Return l, mkStore (graphs s) (node_lists s) (<[l := ts]> (tensor_lists s))).

Definition alloc_nodes (ns : list Node) : St ref :=
  fun s =>
    let l := fresh (dom (node_lists s)) in
    (Return l, mkStore (graphs s) (<[l := ns]> (node_lists s)) (tensor_lists s)).

(** [graph.nodes = l] *)
Definition set_nodes_attr (graph l : ref) : St unit :=
  o <- get_object graph ;;
  fun s =>
    (Return tt,
     mkStore (<[graph := mkObject l (inputs_at o) (outputs_at o)]> (graphs s))
       (node_lists s) (tensor_lists s)).

(** [graph.outputs = l] *)
Definition set_outputs_attr (graph l : ref) : St unit :=
  o <- get_object graph ;;
  fun s =>
    (Return tt,
     mkStore (<[graph := mkObject (nodes_at o) (inputs_at o) l]> (graphs s))
       (node_lists s) (tensor_lists s)).

(** [graph.nodes.append(n)] *)
Definition nodes_append (graph : ref) (n : Node) : St unit :=
  o <- get_object graph ;;
  ns <- get_nodes (nodes_at o) ;;
  put_nodes (nodes_at o) (ns ++ [n]).

Fixpoint for_each {A} (l : list A) (body : A -> St unit) : St unit :=
  match l with
  | [] => ret tt
  | x :: l' => body x ;;; for_each l' body
  end.

(** Lines 22-23.  [iterated] is the list object that [graph2.nodes] gave
    when the loop began; the iterator keeps an index into it and looks it up
    again at every step. *)
Fixpoint extend_nodes (fuel : nat) (i : nat) (iterated merged_graph : ref) : St unit :=
  match fuel with
  | O => out_of_fuel
  | S fuel' =>
      ns <- get_nodes iterated ;;
      match ns !! i with
      | None => ret tt
      | Some node =>
          nodes_append merged_graph node ;;;
          extend_nodes fuel' (S i) iterated merged_graph
      end
  end.

(** The graph as the library sees it when a method is called on it. *)
Definition view (graph : ref) : St Graph :=
  o <- get_object graph ;;
  ns <- get_nodes (nodes_at o) ;;
  ins <- get_tensors (inputs_at o) ;;
  outs <- get_tensors (outputs_at o) ;;
  ret (mkGraph ns ins outs).

(** [graph.toposort()]: the node list that the library computes is assigned
    to [graph.nodes] as a new list, or written into the list that is there. *)
Definition toposort {L : GraphLibrary} (rebinds : bool) (graph : ref) : St unit :=
  g <- view graph ;;
  (if rebinds then
     l <- alloc_nodes (nodes (gs_toposort g).1) ;;
     set_nodes_attr graph l
   else
     o <- get_object graph ;;
     put_nodes (nodes_at o) (nodes (gs_toposort g).1)) ;;;
  match (gs_toposort g).2 with
  | Some e => raise e
  | None => ret tt
  end.

Definition append_graphs {L : GraphLibrary} (copies rebinds : bool) (fuel : nat)
    (graph1 graph2 : ref) : St pyval :=
  o1 <- get_object graph1 ;;
  outs1 <- get_tensors (outputs_at o1) ;;
  o2 <- get_object graph2 ;;
  ins2 <- get_tensors (inputs_at o2) ;;
  if negb (length outs1 =? length ins2) then
    raise (mkExn ValueError (mismatch_msg (length outs1) (length ins2)))
  else
    let merged_graph := graph1 in
    o2 <- get_object graph2 ;;
    extend_nodes fuel 0 (nodes_at o2) merged_graph ;;;
    (* Actual stitching of the graphs *)
    o1 <- get_object graph1 ;;
    outs1 <- get_tensors (outputs_at o1) ;;
    o2 <- get_object graph2 ;;
    ins2 <- get_tensors (inputs_at o2) ;;
    for_each (zip outs1 ins2)
      (fun '(out, inp) => nodes_append merged_graph (identity_node out inp)) ;;;
    o1 <- get_object merged_graph ;;
    put_tensors (outputs_at o1) [] ;;;
    o2 <- get_object graph2 ;;
    (if copies then
       ts <- get_tensors (outputs_at o2) ;;
       l <- alloc_tensors ts ;;
       set_outputs_attr merged_graph l
     else
       set_outputs_attr merged_graph (outputs_at o2)) ;;;
    toposort rebinds merged_graph ;;;
    ret (VGraph merged_graph).

End ByReference.

(** ** [iteratively_infer_shapes] *)

Definition newline : string := String (ascii_of_nat 10) EmptyString.

Definition start_msg : string := "Performing shape inference & folding.".

Definition inference_msg (e : exn) : string :=
  "Shape inference could not be performed at this time:" ++ newline ++ exn_msg e.

Definition fold_shapes_msg (e : exn) : string :=
  "This version of ONNX GraphSurgeon does not support folding shapes, " ++
  "please upgrade your onnx_graphsurgeon module. Error:" ++ newline ++ exn_msg e.

Definition folded_msg (count_before count_after : nat) : string :=
  "Folded " ++ str_Z (Z.of_nat count_before - Z.of_nat count_after) ++ " constants.".

(** [len(graph.nodes)] *)
Definition count_nodes (graph : ref) : M nat :=
  g <- get_graph graph ;; ret (length (nodes g)).

Section Refiner.
Context {L : GraphLibrary}.

(** Lines 53-55: the three calls of the [try] body; the last one returns
    the graph that [gs.import_onnx] built, a new object. *)
Definition reimport (graph : ref) : M ref :=
  g <- get_graph graph ;;
  model <- lift_result (gs_export_onnx g) ;;
  model <- lift_result (infer_shapes model) ;;
  g' <- lift_result (gs_import_onnx model) ;;
  alloc_graph g'.

(** Lines 49-57.  The value is what the local variable [graph] is bound to
    afterwards. *)
Definition infer_step (graph : ref) : M ref :=
  try_except (reimport graph) is_Exception
    (fun e => logger DEBUG (inference_msg e) ;;; ret graph).

(** Lines 58-62. *)
Definition fold_step (graph : ref) : M unit :=
  try_except (call_method gs_fold_constants graph) is_TypeError
    (fun e => logger ERROR (fold_shapes_msg e) ;;; raise e).

(** Lines 58-68, the rest of an iteration once [graph] has its binding
    for the folding.  The value is that binding and whether the [break] was
    taken. *)
Definition finish_pass (count_before : nat) (graph : ref) : M (ref * bool) :=
  fold_step graph ;;;
  count_after <- count_nodes graph ;;
  if count_before =? count_after then
    (* No new folding occurred in this iteration, so we can stop for now. *)
    ret (graph, true)
  else
    logger DEBUG (folded_msg count_before count_after) ;;;
    ret (graph, false).

(** One iteration of the loop, lines 46-68. *)
Definition pass (graph : ref) : M (ref * bool) :=
  tick ;;;
  count_before <- count_nodes graph ;;
  call_method gs_cleanup graph ;;;
  call_method gs_toposort graph ;;;
  graph <- infer_step graph ;;
  finish_pass count_before graph.

(** [for _ in range(n)] around [pass]. *)
Fixpoint passes_loop (n : nat) (graph : ref) : M unit :=
  match n with
  | O => ret tt
  | S n' =>
      r <- pass graph ;;
      if r.2 then ret tt else passes_loop n' r.1
  end.

(** The function has no [return] statement: on normal completion a call
    evaluates to [None]. *)
Definition iteratively_infer_shapes (graph : ref) : M pyval :=
  logger DEBUG start_msg ;;;
  passes_loop 3 graph ;;;
  ret VNone.

End Refiner.

(** ** EMA decay schedules *)

(** Python floats are read as real numbers: rounding, overflow and NaN are
    not part of this model.  [step] and [total_steps] are Python ints.  The
    module [Doubles] below has the schedules over the interpreter's own
    arithmetic, for what depends on rounding and on [OverflowError]. *)

(** [a / b] on two ints: true division, [ZeroDivisionError] on a zero
    divisor. *)
Definition py_truediv (a b : Z) : outcome R :=
  if (b =? 0)%Z then Raise (mkExn ZeroDivisionError "division by zero")
  else Return (IZR a / IZR b)%R.

(** [min(a, b)]: the builtin keeps its first argument unless the second is
    strictly smaller. *)
Definition py_min (a b : R) : R := if Rlt_dec b a then b else a.

(** Sequencing of computations that have no state. *)
Definition and_then {A B} (o : outcome A) (k : A -> outcome B) : outcome B :=
  match o with
  | Return a => k a
  | Raise e => Raise e
  | Stuck => Stuck
  | OutOfFuel => OutOfFuel
  end.

(** [IDecayFunction.__call__(self, decay, step, total_steps)] *)
Class IDecayFunction (T : Type) := call : T -> R -> Z -> Z -> outcome R.

Inductive ConstantDecay := mkConstantDecay.
Inductive ThresholdDecay := mkThresholdDecay.
Record ExpDecay := mkExpDecay { beta : R }.

#[export] Instance ConstantDecay_call : IDecayFunction ConstantDecay :=
  fun self decay step total_steps => Return decay.

#[export] Instance ThresholdDecay_call : IDecayFunction ThresholdDecay :=
  fun self decay step total_steps =>
    and_then (py_truediv (1 + step) (10 + step)) (fun q =>
    Return (py_min decay q)).

#[export] Instance ExpDecay_call : IDecayFunction ExpDecay :=
  fun self decay step total_steps =>
    and_then (py_truediv step total_steps) (fun x =>
    Return (decay * (1 - exp (- x * beta self)))%R).

(** ** Sample libraries and graphs *)

(** A library in which every call succeeds and changes nothing. *)
Definition plain_library : GraphLibrary := {|
  Model := Graph;
  gs_cleanup := fun g => (g, None);
  gs_toposort := fun g => (g, None);
  gs_fold_constants := fun g => (g, None);
  gs_export_onnx := inr;
  infer_shapes := inr;
  gs_import_onnx := inr
|}.

(** A library whose folding removes the first node each time it is called. *)
Definition dropping_library : GraphLibrary := {|
  Model := Graph;
  gs_cleanup := fun g => (g, None);
  gs_toposort := fun g => (g, None);
  gs_fold_constants := fun g => (set_nodes (tail (nodes g)) g, None);
  gs_export_onnx := inr;
  infer_shapes := inr;
  gs_import_onnx := inr
|}.

(** A library whose shape inference always fails and whose folding removes
    the first node. *)
Definition no_inference_library : GraphLibrary := {|
  Model := Graph;
  gs_cleanup := fun g => (g, None);
  gs_toposort := fun g => (g, None);
  gs_fold_constants := fun g => (set_nodes (tail (nodes g)) g, None);
  gs_export_onnx := inr;
  infer_shapes := fun _ => inl (mkExn RuntimeError "unsupported op");
  gs_import_onnx := inr
|}.

(** A library whose folding fails with an exception of class [cls]. *)
Definition failing_fold_library (cls : exn_class) : GraphLibrary := {|
  Model := Graph;
  gs_cleanup := fun g => (g, None);
  gs_toposort := fun g => (g, None);
  gs_fold_constants := fun g => (g, Some (mkExn cls "fold failed"));
  gs_export_onnx := inr;
  infer_shapes := inr;
  gs_import_onnx := inr
|}.

(** A library whose topological sort finds a cycle. *)
Definition cyclic_library : GraphLibrary := {|
  Model := Graph;
  gs_cleanup := fun g => (g, None);
  gs_toposort := fun g => (g, Some (mkExn RuntimeError "Cycle detected in graph!"));
  gs_fold_constants := fun g => (g, None);
  gs_export_onnx := inr;
  infer_shapes := inr;
  gs_import_onnx := inr
|}.

Definition t_x : Tensor := mkTensor "x" None.
Definition t_y : Tensor := mkTensor "y" None.
Definition t_u : Tensor := mkTensor "u" None.
Definition t_v : Tensor := mkTensor "v" None.

Definition n_relu : Node := mkNode "Relu" "relu" [t_x] [t_y].
Definition n_sigmoid : Node := mkNode "Sigmoid" "sigmoid" [t_u] [t_v].

(** [x -> Relu -> y] and [u -> Sigmoid -> v] *)
Definition graph_a : Graph := mkGraph [n_relu] [t_x] [t_y].
Definition graph_b : Graph := mkGraph [n_sigmoid] [t_u] [t_v].

(** A graph with two declared outputs, for a count that does not match. *)
Definition graph_c : Graph := mkGraph [n_relu] [t_x] [t_y; t_x].

(** [graph_a] at reference 0 and [graph_b] at reference 1. *)
Definition two_graphs : state := mkState (<[1 := graph_b]> (<[0 := graph_a]> ∅)) [] 0.

(** [graph_c] at reference 0 and [graph_b] at reference 1. *)
Definition mismatched_graphs : state := mkState (<[1 := graph_b]> (<[0 := graph_c]> ∅)) [] 0.

(** Four nodes in a row, for a refinement that needs every pass. *)
Definition graph_d : Graph := mkGraph [n_relu; n_sigmoid; n_relu; n_sigmoid] [t_x] [t_v].

(** A heap with the single object [g], at reference 0. *)
Definition one_graph (g : Graph) : state := mkState (<[0 := g]> ∅) [] 0.

(** Two graph objects on one node list; each has its own tensor lists. *)
Definition shared_nodes : ByReference.store :=
  ByReference.mkStore
    (<[1 := ByReference.mkObject 0 2 3]> (<[0 := ByReference.mkObject 0 0 1]> ∅))
    (<[0 := [n_relu]]> ∅)
    (<[3 := [t_v]]> (<[2 := [t_u]]> (<[1 := [t_y]]> (<[0 := [t_x]]> ∅)))).

(** [graph_a] and [graph_b], every list an object of its own. *)
Definition unshared_graphs : ByReference.store :=
  ByReference.mkStore
    (<[1 := ByReference.mkObject 1 2 3]> (<[0 := ByReference.mkObject 0 0 1]> ∅))
    (<[1 := [n_sigmoid]]> (<[0 := [n_relu]]> ∅))
    (<[3 := [t_v]]> (<[2 := [t_u]]> (<[1 := [t_y]]> (<[0 := [t_x]]> ∅)))).

(** ** Two invariants of computations *)

(** A computation that leaves the ghost counter alone. *)
Definition quiet {A} (c : M A) : Prop :=
  forall s, passes (c s).2 = passes s.

(** A computation that leaves the object behind [g] as it is, however it
    ends, and whose value, when it has one, satisfies [Q]. *)
Definition keeps (g : ref) {A} (c : M A) (Q : A -> Prop) : Prop :=
  forall s x, heap s !! g = Some x ->
    heap (c s).2 !! g = Some x /\ forall a, (c s).1 = Return a -> Q a.

(** ** Further invariants, for whole calls *)

(** [follows R c Q]: whatever state [c] starts in, the state it ends in is
    related to it by [R], however [c] ends, and its value, when it has one,
    satisfies [Q]. *)
Definition follows (R : state -> state -> Prop) {A} (c : M A) (Q : A -> Prop) : Prop :=
  forall s, R s (c s).2 /\ forall a, (c s).1 = Return a -> Q a.

(** No object but the one behind [g] has changed, and none was created. *)
Definition outside (g : ref) (s s' : state) : Prop :=
  forall r, r <> g -> heap s' !! r = heap s !! r.

(** Nothing was logged and the ghost counter was left alone. *)
Definition same_log (s s' : state) : Prop :=
  log s' = log s /\ passes s' = passes s.

(** The log has only grown. *)
Definition log_grows (s s' : state) : Prop :=
  exists l : list log_record, log s' = (log s ++ l)%list.

(** A computation that only adds to the log, debug records throughout,
    except that it may end in a [TypeError] with the error record of line 61
    as the last thing logged. *)
Definition tidy_log {A} (c : M A) : Prop :=
  forall s, exists l : list log_record,
    log (c s).2 = (log s ++ l)%list /\
    (Forall (fun r => log_level_of r = DEBUG) l \/
     exists (e : exn) (l' : list log_record),
       (c s).1 = Raise e /\ is_TypeError e = true /\
       l = (l' ++ [mkLog ERROR (fold_shapes_msg e)])%list /\
       Forall (fun r => log_level_of r = DEBUG) l').

(** What the three methods of the library raise. *)
Definition library_error {L : GraphLibrary} (e : exn) : Prop :=
  exists g : Graph,
    (gs_cleanup g).2 = Some e \/ (gs_toposort g).2 = Some e \/
    (gs_fold_constants g).2 = Some e.

(** A computation whose exceptions all satisfy [P]. *)
Definition raises_only (P : exn -> Prop) {A} (c : M A) : Prop :=
  forall s e, (c s).1 = Raise e -> P e.

(** ** The table of schedules *)



(** ** The schedules in the interpreter's arithmetic *)

(** Reading floats as real numbers leaves out what double precision adds:
    quotients and results are rounded, and a quotient or an exponential that
    is too large for a double is an [OverflowError].  Here the schedules are
    written over an arithmetic that is a parameter: the operations the source
    uses on floats, with the outcomes Python gives them.  Two arithmetics
    follow: exact real arithmetic, which is the reading used above, and
    binary64 on the standard library's [spec_float]. *)
Module Doubles.

Class PyFloat := {
  float : Type;
  (** [a / b] on two ints *)
  truediv : Z -> Z -> outcome float;
  (** the int [1] as a float *)
  one : float;
  (** [-x], [x * y], [x - y], [x < y] *)
  neg : float -> float;
  mul : float -> float -> float;
  sub : float -> float -> float;
  lt : float -> float -> bool
}.

(** [math.exp] *)
Class PyMath {F : PyFloat} := {
  math_exp : float -> outcome float
}.

Definition ConstantDecay_call {F : PyFloat} (decay : float) (step total_steps : Z) :
    outcome float :=
  Return decay.

(** [min(decay, q)] is [q] if [q < decay] and [decay] otherwise. *)
Definition ThresholdDecay_call {F : PyFloat} (decay : float) (step total_steps : Z) :
    outcome float :=
  and_then (truediv (1 + step) (10 + step)) (fun q =>
  Return (if lt q decay then q else decay)).

Definition ExpDecay_call {F : PyFloat} {M : PyMath} (beta : float) (decay : float)
    (step total_steps : Z) : outcome float :=
  and_then (truediv step total_steps) (fun x =>
  and_then (math_exp (mul (neg x) beta)) (fun e =>
  Return (mul decay (sub one e)))).

(** What Python guarantees about the outcomes of the two operations that can
    fail. *)
Class PyErrors {F : PyFloat} {M : PyMath} : Prop := {
  truediv_zero : forall a,
    truediv a 0 = Raise (mkExn ZeroDivisionError "division by zero");
  truediv_nonzero : forall a b, b <> 0%Z ->
    (exists q, truediv a b = Return q) \/
    truediv a b =
      Raise (mkExn OverflowError "integer division result too large for a float");
  math_exp_outcome : forall x,
    (exists e, math_exp x = Return e) \/
    math_exp x = Raise (mkExn OverflowError "math range error")
}.


(** *** Exact arithmetic *)

#[export] Instance exact : PyFloat := {|
  float := R;
  truediv := py_truediv;
  one := 1%R;
  neg := Ropp;
  mul := Rmult;
  sub := Rminus;
  lt := fun x y => if Rlt_dec x y then true else false
|}.

#[export] Instance exact_math : PyMath (F := exact) := {|
  math_exp := fun x => Return (exp x)
|}.

(** *** Binary64 *)

(** [a / b] on ints is the exact quotient rounded once, to nearest, ties to
    even; a quotient beyond the largest double is an error. *)
Definition int_truediv (a b : Z) : outcome spec_float :=
  if (b =? 0)%Z then Raise (mkExn ZeroDivisionError "division by zero")
  else if (a =? 0)%Z then Return (S754_zero (b <? 0)%Z)
  else
    let '(m, e, l) := SFdiv_core_binary 53 1024 (Z.abs a) 0 (Z.abs b) 0 in
    match binary_round_aux 53 1024 (xorb (a <? 0)%Z (b <? 0)%Z) m e l with
    | S754_infinity _ =>
        Raise (mkExn OverflowError "integer division result too large for a float")
    | q => Return q
    end.

#[export] Instance binary64 : PyFloat := {|
  float := spec_float;
  truediv := int_truediv;
  one := S754_finite false 4503599627370496 (-52);
  neg := SFopp;
  mul := SFmul 53 1024;
  sub := SFsub 53 1024;
  lt := SFltb
|}.

(** [math.exp] calls the C library's [exp], here [libm_exp], and turns an
    infinite result for a finite argument into an error. *)
Definition checked_exp (libm_exp : spec_float -> spec_float) (x : spec_float) :
    outcome spec_float :=
  match libm_exp x, x with
  | S754_infinity _, (S754_zero _ | S754_finite _ _ _) =>
      Raise (mkExn OverflowError "math range error")
  | e, _ => Return e
  end.

Definition binary64_math (libm_exp : spec_float -> spec_float) :
    PyMath (F := binary64) := {|
  math_exp := checked_exp libm_exp
|}.

(** An int as a double, for the sample inputs. *)
Definition float_of_int (z : Z) : spec_float := binary_normalize 53 1024 z 0 false.




End Doubles.

(** A third node, [y -> Tanh -> w]. *)
Definition t_w : Tensor := mkTensor "w" None.
Definition n_tanh : Node := mkNode "Tanh" "tanh" [t_y] [t_w].

(** A graph without nodes: one declared input, one declared output. *)
Definition graph_passthrough : Graph := mkGraph [] [t_x] [t_y].

(** Three graphs, [graph_a], [graph_b] and [y -> Tanh -> w], every list an
    object of its own. *)
Definition unshared_three : ByReference.store :=
  ByReference.mkStore
    (<[2 := ByReference.mkObject 2 4 5]>
       (<[1 := ByReference.mkObject 1 2 3]> (<[0 := ByReference.mkObject 0 0 1]> ∅)))
    (<[2 := [n_tanh]]> (<[1 := [n_sigmoid]]> (<[0 := [n_relu]]> ∅)))
    (<[5 := [t_w]]> (<[4 := [t_y]]>
       (<[3 := [t_v]]> (<[2 := [t_u]]> (<[1 := [t_y]]> (<[0 := [t_x]]> ∅)))))).

(** * Properties *)

(** ** The model on sample inputs *)

(** Two one-node graphs, stitched. *)
Example append_two_graphs :
  append_graphs (L := plain_library) 5 0 1 two_graphs =
  (Return (VGraph 0),
   mkState (<[0 := mkGraph [n_relu; n_sigmoid; identity_node t_y t_u] [t_x] [t_v]]>
              (<[1 := graph_b]> (<[0 := graph_a]> ∅))) [] 0).
Proof. vm_compute. reflexivity. Qed.

(** When [toposort] raises, so does [append_graphs], after the stitching. *)
Example append_cyclic :
  (append_graphs (L := cyclic_library) 5 0 1 two_graphs).1 =
  Raise (mkExn RuntimeError "Cycle detected in graph!").
Proof. vm_compute. reflexivity. Qed.

(** While inference fails the folding works on the caller's object: three
    iterations take three of its four nodes. *)
Example refine_in_place :
  let r := iteratively_infer_shapes (L := no_inference_library) 0 (one_graph graph_d) in
  r.1 = Return VNone /\
  heap r.2 !! 0 = Some (mkGraph [n_sigmoid] [t_x] [t_v]) /\
  passes r.2 = 3.
Proof. vm_compute. repeat split; reflexivity. Qed.

(** ** The heap *)

Lemma set_heap_heap (h : gmap ref Graph) (s : state) : heap (set_heap h s) = h.
Proof. reflexivity. Qed.

Lemma set_heap_twice (h h' : gmap ref Graph) (s : state) :
  set_heap h (set_heap h' s) = set_heap h s.
Proof. reflexivity. Qed.

Lemma set_heap_same (s : state) : set_heap (heap s) s = s.
Proof. destruct s; reflexivity. Qed.

Lemma set_nodes_same (g : Graph) : set_nodes (nodes g) g = g.
Proof. destruct g; reflexivity. Qed.

Lemma get_graph_Some (r : ref) (g : Graph) (s : state) :
  heap s !! r = Some g -> get_graph r s = (Return g, s).
Proof. intros Hr. unfold get_graph. rewrite Hr. reflexivity. Qed.

Lemma modify_graph_Some (r : ref) (f : Graph -> Graph) (g : Graph) (s : state) :
  heap s !! r = Some g ->
  modify_graph r f s = (Return tt, set_heap (<[r := f g]> (heap s)) s).
Proof.
  intros Hr. unfold modify_graph, bind. rewrite (get_graph_Some r g s Hr).
  reflexivity.
Qed.

(** ** [append_graphs]: the two loops *)

(** The stitching loop adds one identity node per pair, in order. *)
Lemma for_each_identity (l : list (Tensor * Tensor)) :
  forall (g1 : ref) (A : Graph) (s : state),
    heap s !! g1 = Some A ->
    for_each l (fun '(out, inp) => nodes_append g1 (identity_node out inp)) s =
    (Return tt,
     set_heap (<[g1 := set_nodes (nodes A ++ map (fun p => identity_node p.1 p.2) l) A]> (heap s)) s).
Proof.
  induction l as [|[out inp] l IH]; intros g1 A s H1.
  - cbn. rewrite app_nil_r, set_nodes_same, insert_id by exact H1.
    rewrite set_heap_same. reflexivity.
  - cbn [for_each]. unfold bind, nodes_append.
    rewrite (modify_graph_Some g1 _ A s H1).
    rewrite (IH g1 (set_nodes (nodes A ++ [identity_node out inp]) A)).
    + rewrite set_heap_heap, set_heap_twice, insert_insert_eq.
      cbn. rewrite <- app_assoc. reflexivity.
    + rewrite set_heap_heap. apply lookup_insert_eq.
Qed.

(** Reading a list through its own iterator while appending to it never
    reaches the end. *)
Lemma extend_nodes_self (fuel : nat) :
  forall (i : nat) (g : ref) (A : Graph) (s : state),
    heap s !! g = Some A ->
    i < length (nodes A) ->
    (extend_nodes fuel i g g s).1 = OutOfFuel.
Proof.
  induction fuel as [|fuel IH]; intros i g A s Hg Hi; [reflexivity|].
  cbn [extend_nodes]. unfold bind at 1. rewrite (get_graph_Some g A s Hg).
  destruct (lookup_lt_is_Some_2 _ _ Hi) as [node Hnode]. rewrite Hnode.
  unfold bind, nodes_append. rewrite (modify_graph_Some g _ A s Hg).
  apply (IH (S i) g (set_nodes (nodes A ++ [node]) A)).
  - rewrite set_heap_heap. apply lookup_insert_eq.
  - cbn. rewrite length_app. cbn. lia.
Qed.

Lemma zip_with_identity (l : list Tensor) (k : list Tensor) :
  map (fun p => identity_node p.1 p.2) (zip l k) = zip_with identity_node l k.
Proof.
  revert k. induction l as [|x l IH]; intros [|y k]; cbn; try reflexivity.
  rewrite IH. reflexivity.
Qed.

(** C2. When the number of declared outputs of the first graph differs from
    the number of declared inputs of the second, [append_graphs] raises the
    [ValueError] of line 18 and the state it leaves is the state it was called
    in: no object has been touched. *)
Theorem append_graphs_mismatch {L : GraphLibrary} (fuel : nat) (g1 g2 : ref) (A B : Graph) (s : state) :
  heap s !! g1 = Some A ->
  heap s !! g2 = Some B ->
  length (outputs A) <> length (inputs B) ->
  append_graphs fuel g1 g2 s =
  (Raise (mkExn ValueError (mismatch_msg (length (outputs A)) (length (inputs B)))), s).
Proof.
  intros H1 H2 Hlen. unfold append_graphs, bind.
  rewrite (get_graph_Some g1 A s H1), (get_graph_Some g2 B s H2).
  apply Nat.eqb_neq in Hlen. rewrite Hlen. reflexivity.
Qed.

(** ** The ghost counter *)

Create HintDb quiet discriminated.

Lemma quiet_ret {A} (a : A) : quiet (ret a).
Proof. intros s. reflexivity. Qed.

Lemma quiet_raise {A} (e : exn) : quiet (@raise A e).
Proof. intros s. reflexivity. Qed.

Lemma quiet_bind {A B} (c : M A) (k : A -> M B) :
  quiet c -> (forall a, quiet (k a)) -> quiet (bind c k).
Proof.
  intros Hc Hk s. unfold bind. specialize (Hc s).
  destruct (c s) as [[a|e| |] s']; cbn in *; try exact Hc.
  rewrite (Hk a s'). exact Hc.
Qed.

Lemma quiet_try_except {A} (c : M A) (catches : exn -> bool) (h : exn -> M A) :
  quiet c -> (forall e, quiet (h e)) -> quiet (try_except c catches h).
Proof.
  intros Hc Hh s. unfold try_except. specialize (Hc s).
  destruct (c s) as [[a|e| |] s']; cbn in *; try exact Hc.
  destruct (catches e); cbn; [|exact Hc].
  rewrite (Hh e s'). exact Hc.
Qed.

Lemma quiet_get_graph (r : ref) : quiet (get_graph r).
Proof. intros s. unfold get_graph. destruct (heap s !! r); reflexivity. Qed.

Lemma quiet_put_graph (r : ref) (g : Graph) : quiet (put_graph r g).
Proof. intros s. reflexivity. Qed.

Lemma quiet_alloc_graph (g : Graph) : quiet (alloc_graph g).
Proof. intros s. reflexivity. Qed.

Lemma quiet_logger (lvl : log_level) (msg : string) : quiet (logger lvl msg).
Proof. intros s. reflexivity. Qed.

Lemma quiet_lift_result {A} (r : exn + A) : quiet (lift_result r).
Proof. destruct r; intros s; reflexivity. Qed.

#[export] Hint Resolve quiet_ret quiet_raise quiet_get_graph quiet_put_graph
  quiet_alloc_graph quiet_logger quiet_lift_result : quiet.

Ltac quiet_steps :=
  repeat first
    [ solve [auto with quiet]
    | apply quiet_try_except; [|intros ?]
    | apply quiet_bind; [|intros ?] ].

Lemma quiet_call_method (m : Graph -> Graph * option exn) (r : ref) :
  quiet (call_method m r).
Proof.
  unfold call_method. quiet_steps. destruct (m _).2; auto with quiet.
Qed.

Lemma quiet_count_nodes (r : ref) : quiet (count_nodes r).
Proof. unfold count_nodes. quiet_steps. Qed.

#[export] Hint Resolve quiet_call_method quiet_count_nodes : quiet.

Section RefinerCounter.
Context {L : GraphLibrary}.

Lemma quiet_infer_step (graph : ref) : quiet (infer_step graph).
Proof. unfold infer_step, reimport. quiet_steps. Qed.

Lemma quiet_fold_step (graph : ref) : quiet (fold_step graph).
Proof. unfold fold_step. quiet_steps. Qed.

Lemma quiet_finish_pass (count_before : nat) (graph : ref) :
  quiet (finish_pass count_before graph).
Proof.
  unfold finish_pass. apply quiet_bind; [apply quiet_fold_step|intros _].
  apply quiet_bind; [auto with quiet|intros count_after].
  destruct (count_before =? count_after); quiet_steps.
Qed.

(** Each iteration bumps the counter once, however it ends. *)
Lemma pass_ticks (graph : ref) (s : state) :
  passes (pass graph s).2 = S (passes s).
Proof.
  unfold pass. unfold bind at 1. cbn [tick].
  match goal with |- passes (?c ?s0).2 = _ => assert (Hq : quiet c) end.
  { apply quiet_bind; [auto with quiet|intros count_before].
    apply quiet_bind; [auto with quiet|intros _].
    apply quiet_bind; [auto with quiet|intros _].
    apply quiet_bind; [apply quiet_infer_step|intros g].
    apply quiet_finish_pass. }
  rewrite Hq. reflexivity.
Qed.

Lemma passes_loop_bound (n : nat) :
  forall (graph : ref) (s : state),
    passes (passes_loop n graph s).2 <= passes s + n.
Proof.
  induction n as [|n IH]; intros graph s; cbn [passes_loop].
  - cbn. lia.
  - unfold bind. pose proof (pass_ticks graph s) as Ht.
    destruct (pass graph s) as [[[g stop]|e| |] s']; cbn in *; try lia.
    destruct stop; cbn; [lia|].
    specialize (IH g s'). lia.
Qed.

End RefinerCounter.

(** ** Taking a normal completion apart *)

Lemma bind_Return {A B} (c : M A) (k : A -> M B) (s s' : state) (b : B) :
  bind c k s = (Return b, s') ->
  exists a s1, c s = (Return a, s1) /\ k a s1 = (Return b, s').
Proof.
  unfold bind. destruct (c s) as [[a|e| |] s1]; intros Hk; try discriminate.
  exists a, s1. split; [reflexivity|exact Hk].
Qed.

Lemma bind_Raise_l {A B} (c : M A) (k : A -> M B) (s s' : state) (e : exn) :
  c s = (Raise e, s') -> bind c k s = (Raise e, s').
Proof. intros Hc. unfold bind. rewrite Hc. reflexivity. Qed.

Lemma bind_Return_l {A B} (c : M A) (k : A -> M B) (s s' : state) (a : A) :
  c s = (Return a, s') -> bind c k s = k a s'.
Proof. intros Hc. unfold bind. rewrite Hc. reflexivity. Qed.

Lemma count_nodes_Some (r : ref) (g : Graph) (s : state) :
  heap s !! r = Some g -> count_nodes r s = (Return (length (nodes g)), s).
Proof.
  intros Hr. unfold count_nodes, bind. rewrite (get_graph_Some r g s Hr).
  reflexivity.
Qed.

Lemma count_nodes_Return (r : ref) (s s' : state) (n : nat) :
  count_nodes r s = (Return n, s') ->
  s' = s /\ exists g, heap s !! r = Some g /\ n = length (nodes g).
Proof.
  unfold count_nodes, bind, get_graph.
  destruct (heap s !! r) as [g|]; [|discriminate].
  cbn. intros [= <- <-]. split; [reflexivity|]. exists g. split; reflexivity.
Qed.

Lemma call_method_Some (m : Graph -> Graph * option exn) (r : ref) (g : Graph) (s : state) :
  heap s !! r = Some g ->
  call_method m r s =
  (match (m g).2 with Some e => Raise e | None => Return tt end,
   set_heap (<[r := (m g).1]> (heap s)) s).
Proof.
  intros Hr. unfold call_method, bind. rewrite (get_graph_Some r g s Hr).
  cbn. destruct (m g).2; reflexivity.
Qed.

Section RefinerShape.
Context {L : GraphLibrary}.

Lemma finish_pass_Return (count_before : nat) (graph : ref) (s s' : state) (r : ref * bool) :
  finish_pass count_before graph s = (Return r, s') ->
  exists g', heap s' !! r.1 = Some g' /\ r.2 = (count_before =? length (nodes g')).
Proof.
  unfold finish_pass. intros Hf.
  apply bind_Return in Hf as (_ & s1 & _ & Hf).
  apply bind_Return in Hf as (count_after & s2 & Hc & Hf).
  apply count_nodes_Return in Hc as (-> & g' & Hg' & ->).
  exists g'. destruct (count_before =? length (nodes g')) eqn:Heq.
  - injection Hf as <- <-. split; [exact Hg'|reflexivity].
  - apply bind_Return in Hf as (u & s3 & Hl & Hf).
    injection Hl as _ <-. injection Hf as <- <-. split; [exact Hg'|reflexivity].
Qed.

(** The [break] is taken exactly when the count read at the top of the
    iteration is the count of the graph the iteration ends with. *)
Lemma pass_Return (graph : ref) (s s' : state) (r : ref * bool) :
  pass graph s = (Return r, s') ->
  exists g g', heap s !! graph = Some g /\ heap s' !! r.1 = Some g' /\
               r.2 = (length (nodes g) =? length (nodes g')).
Proof.
  unfold pass. intros Hp.
  apply bind_Return in Hp as (u & s1 & Ht & Hp). injection Ht as _ <-.
  apply bind_Return in Hp as (count_before & s2 & Hc & Hp).
  apply count_nodes_Return in Hc as (-> & g & Hg & ->).
  apply bind_Return in Hp as (_ & s3 & _ & Hp).
  apply bind_Return in Hp as (_ & s4 & _ & Hp).
  apply bind_Return in Hp as (w & s5 & _ & Hp).
  apply finish_pass_Return in Hp as (g' & Hg' & Hr).
  exists g, g'. split; [exact Hg|]. split; [exact Hg'|exact Hr].
Qed.

Lemma pass_unchanged_count (graph : ref) (s s' : state) (r : ref * bool) (g g' : Graph) :
  pass graph s = (Return r, s') ->
  heap s !! graph = Some g ->
  heap s' !! r.1 = Some g' ->
  length (nodes g) = length (nodes g') ->
  r.2 = true.
Proof.
  intros Hp Hg Hg' Hlen.
  apply pass_Return in Hp as (g0 & g0' & Hg0 & Hg0' & ->).
  rewrite Hg in Hg0. injection Hg0 as <-.
  rewrite Hg' in Hg0'. injection Hg0' as <-.
  apply Nat.eqb_eq. exact Hlen.
Qed.

End RefinerShape.

(** C3. [iteratively_infer_shapes] runs at most three iterations of its loop,
    whatever the graph and however the call ends.  An iteration that ends
    normally with as many nodes in the working graph as there were when it
    began is the last one: the loop stops there, before the cap.  In
    particular, when this happens in the first iteration the call has run
    exactly one. *)
Theorem refinement_pass_bound {L : GraphLibrary} :
  (forall (graph : ref) (s : state),
      passes (iteratively_infer_shapes graph s).2 <= passes s + 3) /\
  (forall (n : nat) (graph : ref) (s s' : state) (r : ref * bool) (g g' : Graph),
      pass graph s = (Return r, s') ->
      heap s !! graph = Some g ->
      heap s' !! r.1 = Some g' ->
      length (nodes g) = length (nodes g') ->
      passes_loop (S n) graph s = (Return tt, s') /\ passes s' = passes s + 1) /\
  (forall (graph : ref) (s s' : state) (r : ref * bool) (g g' : Graph),
      pass graph (logger DEBUG start_msg s).2 = (Return r, s') ->
      heap s !! graph = Some g ->
      heap s' !! r.1 = Some g' ->
      length (nodes g) = length (nodes g') ->
      iteratively_infer_shapes graph s = (Return VNone, s') /\
      passes s' = passes s + 1).
Proof.
  assert (Hstop : forall (n : nat) (graph : ref) (s s' : state) (r : ref * bool) (g g' : Graph),
      pass graph s = (Return r, s') ->
      heap s !! graph = Some g ->
      heap s' !! r.1 = Some g' ->
      length (nodes g) = length (nodes g') ->
      passes_loop (S n) graph s = (Return tt, s') /\ passes s' = passes s + 1).
  { intros n graph s s' r g g' Hp Hg Hg' Hlen.
    pose proof (pass_unchanged_count graph s s' r g g' Hp Hg Hg' Hlen) as Hr.
    pose proof (pass_ticks graph s) as Ht. rewrite Hp in Ht. cbn in Ht.
    split; [|lia].
    cbn [passes_loop]. rewrite (bind_Return_l _ _ _ _ _ Hp), Hr. reflexivity. }
  split; [|split; [exact Hstop|]].
  - intros graph s. unfold iteratively_infer_shapes. unfold bind at 1.
    cbn [logger]. set (s0 := mkState _ _ _).
    pose proof (passes_loop_bound 3 graph s0) as Hb.
    unfold bind. destruct (passes_loop 3 graph s0) as [[[]|e| |] s']; cbn in *; exact Hb.
  - intros graph s s' r g g' Hp Hg Hg' Hlen.
    destruct (Hstop 2 graph _ s' r g g' Hp Hg Hg' Hlen) as [Hloop Hcount].
    split; [|exact Hcount].
    unfold iteratively_infer_shapes. unfold bind at 1. cbn [logger].
    cbn [logger snd] in Hloop. unfold bind at 1. rewrite Hloop. reflexivity.
Qed.

(** ** Objects that a computation does not touch *)

Lemma keeps_ret (g : ref) {A} (a : A) (Q : A -> Prop) : Q a -> keeps g (ret a) Q.
Proof. intros Ha s x Hx. split; [exact Hx|]. cbn. intros b [= <-]. exact Ha. Qed.

Lemma keeps_raise (g : ref) {A} (e : exn) (Q : A -> Prop) : keeps g (raise e) Q.
Proof. intros s x Hx. split; [exact Hx|]. cbn. intros b [=]. Qed.

Lemma keeps_weaken (g : ref) {A} (c : M A) (Q Q' : A -> Prop) :
  keeps g c Q -> (forall a, Q a -> Q' a) -> keeps g c Q'.
Proof.
  intros Hc HQ s x Hx. destruct (Hc s x Hx) as [Hh Ha].
  split; [exact Hh|]. intros a Hr. apply HQ, Ha, Hr.
Qed.

Lemma keeps_bind (g : ref) {A B} (c : M A) (k : A -> M B) (Q : A -> Prop) (Q' : B -> Prop) :
  keeps g c Q -> (forall a, Q a -> keeps g (k a) Q') -> keeps g (bind c k) Q'.
Proof.
  intros Hc Hk s x Hx. destruct (Hc s x Hx) as [Hh Ha]. unfold bind.
  destruct (c s) as [[a|e| |] s1]; cbn in *;
    try (split; [exact Hh|intros b [=]]).
  apply (Hk a (Ha a eq_refl) s1 x Hh).
Qed.

Lemma keeps_try_except (g : ref) {A} (c : M A) (catches : exn -> bool)
    (h : exn -> M A) (Q : A -> Prop) :
  keeps g c Q -> (forall e, keeps g (h e) Q) -> keeps g (try_except c catches h) Q.
Proof.
  intros Hc Hh s x Hx. destruct (Hc s x Hx) as [Hs Ha]. unfold try_except.
  destruct (c s) as [[a|e| |] s1]; cbn in *;
    try (split; [exact Hs|exact Ha]).
  destruct (catches e); [apply (Hh e s1 x Hs)|].
  split; [exact Hs|exact Ha].
Qed.

Lemma keeps_get_graph (g r : ref) : keeps g (get_graph r) (fun _ => True).
Proof.
  intros s x Hx. unfold get_graph.
  destruct (heap s !! r); (split; [exact Hx|intros; exact I]).
Qed.

Lemma keeps_put_graph (g r : ref) (v : Graph) :
  r <> g -> keeps g (put_graph r v) (fun _ => True).
Proof.
  intros Hne s x Hx. cbn. rewrite lookup_insert_ne by exact Hne.
  split; [exact Hx|intros; exact I].
Qed.

(** The reference of a new object is none of those in use. *)
Lemma keeps_alloc_graph (g : ref) (v : Graph) :
  keeps g (alloc_graph v) (fun r => r <> g).
Proof.
  intros s x Hx. cbn.
  assert (Hfresh : fresh (dom (heap s)) <> g).
  { intros Heq. apply (is_fresh (dom (heap s))). rewrite Heq.
    apply elem_of_dom. exists x. exact Hx. }
  rewrite lookup_insert_ne by exact Hfresh.
  split; [exact Hx|]. intros a [= <-]. exact Hfresh.
Qed.

Lemma keeps_logger (g : ref) (lvl : log_level) (msg : string) :
  keeps g (logger lvl msg) (fun _ => True).
Proof. intros s x Hx. split; [exact Hx|intros; exact I]. Qed.

Lemma keeps_tick (g : ref) : keeps g tick (fun _ => True).
Proof. intros s x Hx. split; [exact Hx|intros; exact I]. Qed.

Lemma keeps_lift_result (g : ref) {A} (r : exn + A) :
  keeps g (lift_result r) (fun _ => True).
Proof. destruct r; intros s x Hx; (split; [exact Hx|intros; exact I]). Qed.

Lemma keeps_call_method (g r : ref) (m : Graph -> Graph * option exn) :
  r <> g -> keeps g (call_method m r) (fun _ => True).
Proof.
  intros Hne. unfold call_method.
  apply (keeps_bind g _ _ _ _ (keeps_get_graph g r)). intros v _.
  apply (keeps_bind g _ _ _ _ (keeps_put_graph g r _ Hne)). intros _ _.
  destruct (m v).2; [apply keeps_raise|apply keeps_ret; exact I].
Qed.

Lemma keeps_count_nodes (g r : ref) : keeps g (count_nodes r) (fun _ => True).
Proof.
  unfold count_nodes.
  apply (keeps_bind g _ _ _ _ (keeps_get_graph g r)). intros v _.
  apply keeps_ret. exact I.
Qed.

Section RefinerFrame.
Context {L : GraphLibrary}.

Lemma keeps_reimport (g graph : ref) : keeps g (reimport graph) (fun r => r <> g).
Proof.
  unfold reimport.
  apply (keeps_bind g _ _ _ _ (keeps_get_graph g graph)). intros v _.
  apply (keeps_bind g _ _ _ _ (keeps_lift_result g _)). intros m _.
  apply (keeps_bind g _ _ _ _ (keeps_lift_result g _)). intros m' _.
  apply (keeps_bind g _ _ _ _ (keeps_lift_result g _)). intros v' _.
  apply keeps_alloc_graph.
Qed.

(** The inference step binds [graph] to the object it had or to a new
    one, never to [g]. *)
Lemma keeps_infer_step (g graph : ref) :
  graph <> g -> keeps g (infer_step graph) (fun r => r <> g).
Proof.
  intros Hne. unfold infer_step.
  apply keeps_try_except; [apply keeps_reimport|]. intros e.
  apply (keeps_bind g _ _ _ _ (keeps_logger g _ _)). intros _ _.
  apply keeps_ret. exact Hne.
Qed.

Lemma keeps_fold_step (g graph : ref) :
  graph <> g -> keeps g (fold_step graph) (fun _ => True).
Proof.
  intros Hne. unfold fold_step.
  apply keeps_try_except; [apply keeps_call_method; exact Hne|]. intros e.
  apply (keeps_bind g _ _ _ _ (keeps_logger g _ _)). intros _ _.
  apply keeps_raise.
Qed.

Lemma keeps_finish_pass (g graph : ref) (count_before : nat) :
  graph <> g -> keeps g (finish_pass count_before graph) (fun r => r.1 <> g).
Proof.
  intros Hne. unfold finish_pass.
  apply (keeps_bind g _ _ _ _ (keeps_fold_step g graph Hne)). intros _ _.
  apply (keeps_bind g _ _ _ _ (keeps_count_nodes g graph)). intros count_after _.
  destruct (count_before =? count_after).
  - apply keeps_ret. exact Hne.
  - apply (keeps_bind g _ _ _ _ (keeps_logger g _ _)). intros _ _.
    apply keeps_ret. exact Hne.
Qed.

Lemma keeps_pass (g graph : ref) :
  graph <> g -> keeps g (pass graph) (fun r => r.1 <> g).
Proof.
  intros Hne. unfold pass.
  apply (keeps_bind g _ _ _ _ (keeps_tick g)). intros _ _.
  apply (keeps_bind g _ _ _ _ (keeps_count_nodes g graph)). intros count_before _.
  apply (keeps_bind g _ _ _ _ (keeps_call_method g graph _ Hne)). intros _ _.
  apply (keeps_bind g _ _ _ _ (keeps_call_method g graph _ Hne)). intros _ _.
  apply (keeps_bind g _ _ _ _ (keeps_infer_step g graph Hne)). intros w Hw.
  apply keeps_finish_pass. exact Hw.
Qed.

(** A loop that starts on another object never comes back to [g]. *)
Lemma keeps_passes_loop (g : ref) (n : nat) :
  forall graph, graph <> g -> keeps g (passes_loop n graph) (fun _ => True).
Proof.
  induction n as [|n IH]; intros graph Hne; cbn [passes_loop].
  - apply keeps_ret. exact I.
  - apply (keeps_bind g _ _ _ _ (keeps_pass g graph Hne)). intros r Hr.
    destruct r.2; [apply keeps_ret; exact I|apply IH; exact Hr].
Qed.

(** An iteration in which cleanup, sorting and the three calls of the
    [try] body all succeed goes on with a new object. *)
Lemma pass_reimported (graph : ref) (s : state) (g g3 : Graph) (m m' : Model) :
  heap s !! graph = Some g ->
  let g1 := (gs_cleanup g).1 in
  let g2 := (gs_toposort g1).1 in
  (gs_cleanup g).2 = None ->
  (gs_toposort g1).2 = None ->
  gs_export_onnx g2 = inr m ->
  infer_shapes m = inr m' ->
  gs_import_onnx m' = inr g3 ->
  let h2 := <[graph := g2]> (heap s) in
  pass graph s =
  finish_pass (length (nodes g)) (fresh (dom h2))
    (mkState (<[fresh (dom h2) := g3]> h2) (log s) (S (passes s))).
Proof.
  intros Hg g1 g2 Hc Ht He Hi Him h2. unfold pass.
  unfold bind at 1. cbn [tick].
  set (s1 := mkState (heap s) (log s) (S (passes s))).
  assert (H1 : heap s1 !! graph = Some g) by exact Hg.
  rewrite (bind_Return_l _ _ _ _ _ (count_nodes_Some graph g s1 H1)).
  unfold bind at 1. rewrite (call_method_Some _ graph g s1 H1), Hc.
  set (s2 := set_heap _ s1).
  assert (H2 : heap s2 !! graph = Some g1) by apply lookup_insert_eq.
  unfold bind at 1. rewrite (call_method_Some _ graph g1 s2 H2), Ht.
  set (s3 := set_heap _ s2).
  assert (H3 : heap s3 !! graph = Some g2) by apply lookup_insert_eq.
  assert (Hstep : infer_step graph s3 =
                  (Return (fresh (dom (heap s3))),
                   set_heap (<[fresh (dom (heap s3)) := g3]> (heap s3)) s3)).
  { unfold infer_step, try_except, reimport.
    unfold bind at 1. rewrite (get_graph_Some graph g2 s3 H3).
    fold g1 g2. rewrite He. cbn. rewrite Hi. cbn. rewrite Him. reflexivity. }
  rewrite (bind_Return_l _ _ _ _ _ Hstep).
  assert (Hh : heap s3 = h2).
  { subst s3 s2 s1 h2. cbn. apply insert_insert_eq. }
  rewrite Hh. reflexivity.
Qed.

End RefinerFrame.

Section RefinerFailures.
Context {L : GraphLibrary}.

(** The [try] body changes nothing before it raises. *)
Lemma reimport_Raise (graph : ref) (s s' : state) (e : exn) :
  reimport graph s = (Raise e, s') -> s' = s.
Proof.
  unfold reimport, bind, get_graph.
  destruct (heap s !! graph) as [g|]; [|discriminate]. cbn.
  destruct (gs_export_onnx g) as [e1|m]; cbn; [intros [= _ <-]; reflexivity|].
  destruct (infer_shapes m) as [e2|m']; cbn; [intros [= _ <-]; reflexivity|].
  destruct (gs_import_onnx m') as [e3|g']; cbn; [intros [= _ <-]; reflexivity|].
  discriminate.
Qed.

Lemma infer_step_never_raises (graph : ref) (s : state) (e : exn) :
  (infer_step graph s).1 <> Raise e.
Proof.
  unfold infer_step, try_except.
  destruct (reimport graph s) as [[r|e'| |] s']; cbn; discriminate.
Qed.

Lemma infer_step_caught (graph : ref) (s s' : state) (e : exn) :
  reimport graph s = (Raise e, s') ->
  infer_step graph s =
  (Return graph, mkState (heap s) (log s ++ [mkLog DEBUG (inference_msg e)]) (passes s)).
Proof.
  intros Hr. pose proof (reimport_Raise graph s s' e Hr) as ->.
  unfold infer_step, try_except. rewrite Hr. reflexivity.
Qed.

(** The iteration up to the inference step, when cleanup and sorting
    succeed. *)
Lemma pass_sorted (graph : ref) (s : state) (g : Graph) :
  heap s !! graph = Some g ->
  let g1 := (gs_cleanup g).1 in
  let g2 := (gs_toposort g1).1 in
  (gs_cleanup g).2 = None ->
  (gs_toposort g1).2 = None ->
  pass graph s =
  bind (infer_step graph) (finish_pass (length (nodes g)))
    (mkState (<[graph := g2]> (heap s)) (log s) (S (passes s))).
Proof.
  intros Hg g1 g2 Hc Ht. unfold pass.
  unfold bind at 1. cbn [tick].
  set (s1 := mkState (heap s) (log s) (S (passes s))).
  assert (H1 : heap s1 !! graph = Some g) by exact Hg.
  rewrite (bind_Return_l _ _ _ _ _ (count_nodes_Some graph g s1 H1)).
  unfold bind at 1. rewrite (call_method_Some _ graph g s1 H1), Hc.
  set (s2 := set_heap _ s1).
  assert (H2 : heap s2 !! graph = Some g1) by apply lookup_insert_eq.
  unfold bind at 1. rewrite (call_method_Some _ graph g1 s2 H2), Ht.
  subst s2 s1. unfold set_heap. cbn. rewrite insert_insert_eq. reflexivity.
Qed.

(** Whatever [fold_constants] raises leaves the iteration; a [TypeError]
    is logged on the way. *)
Lemma finish_pass_Raise (count_before : nat) (graph : ref) (s : state) (g : Graph) (e : exn) :
  heap s !! graph = Some g ->
  (gs_fold_constants g).2 = Some e ->
  finish_pass count_before graph s =
  (Raise e,
   mkState (<[graph := (gs_fold_constants g).1]> (heap s))
     (log s ++ (if is_TypeError e then [mkLog ERROR (fold_shapes_msg e)] else []))
     (passes s)).
Proof.
  intros Hg He. unfold finish_pass, fold_step, try_except, bind.
  rewrite (call_method_Some _ graph g s Hg), He.
  destruct (is_TypeError e); cbn; [reflexivity|].
  rewrite app_nil_r. reflexivity.
Qed.

End RefinerFailures.

(** C9. In an iteration where cleanup, sorting, export, inference and import
    all succeed, the local variable [graph] ends up bound to an object other
    than the one the iteration began with; the object it began with holds the
    graph as [toposort] left it, at the end of the iteration and at the end of
    the loop, however many iterations follow and however the loop ends.
    Folding and everything after it work on other objects. *)
Theorem reimport_rebinds_local {L : GraphLibrary}
    (n : nat) (graph : ref) (s : state) (g g3 : Graph) (m m' : Model) :
  heap s !! graph = Some g ->
  let g1 := (gs_cleanup g).1 in
  let g2 := (gs_toposort g1).1 in
  (gs_cleanup g).2 = None ->
  (gs_toposort g1).2 = None ->
  gs_export_onnx g2 = inr m ->
  infer_shapes m = inr m' ->
  gs_import_onnx m' = inr g3 ->
  (forall r s', pass graph s = (Return r, s') -> r.1 <> graph) /\
  heap (pass graph s).2 !! graph = Some g2 /\
  heap (passes_loop (S n) graph s).2 !! graph = Some g2 /\
  heap (iteratively_infer_shapes graph s).2 !! graph = Some g2.
Proof.
  intros Hg g1 g2 Hc Ht He Hi Him.
  assert (Hpass : forall s0 : state, heap s0 = heap s ->
            heap (pass graph s0).2 !! graph = Some g2 /\
            forall r, (pass graph s0).1 = Return r -> r.1 <> graph).
  { intros s0 Hs0. rewrite <- Hs0 in Hg.
    rewrite (pass_reimported graph s0 g g3 m m' Hg Hc Ht He Hi Him).
    set (h2 := <[graph := g2]> (heap s0)).
    assert (Hfresh : fresh (dom h2) <> graph).
    { intros Heq. apply (is_fresh (dom h2)). rewrite Heq.
      apply elem_of_dom. exists g2. apply lookup_insert_eq. }
    apply (keeps_finish_pass graph _ _ Hfresh). cbn.
    rewrite lookup_insert_ne by exact Hfresh. apply lookup_insert_eq. }
  assert (Hloop : forall k (s0 : state), heap s0 = heap s ->
            heap (passes_loop (S k) graph s0).2 !! graph = Some g2).
  { intros k s0 Hs0. destruct (Hpass s0 Hs0) as [Hh Hr].
    cbn [passes_loop]. unfold bind.
    destruct (pass graph s0) as [[r|e| |] s1]; cbn in *; try exact Hh.
    destruct r.2; [exact Hh|].
    apply (keeps_passes_loop graph k r.1 (Hr r eq_refl) s1 g2 Hh). }
  destruct (Hpass s eq_refl) as [Hh Hr].
  split; [|split; [exact Hh|split; [apply Hloop; reflexivity|]]].
  - intros r s' Hp. apply Hr. rewrite Hp. reflexivity.
  - unfold iteratively_infer_shapes. unfold bind at 1. cbn [logger].
    set (s0 := mkState _ _ _).
    pose proof (Hloop 2 s0 eq_refl) as H3. unfold bind.
    destruct (passes_loop 3 graph s0) as [[[]|e| |] s1]; exact H3.
Qed.

(** C5. A failure of the shape-inference step never leaves the step: when one
    of export, inference and import raises, the handler logs one debug record
    carrying the exception's text, the local variable [graph] keeps its
    binding and no object has changed; the iteration goes on to the folding
    with that same object. *)
Theorem inference_failure_is_swallowed {L : GraphLibrary} :
  (forall (graph : ref) (s : state) (e : exn),
      (infer_step graph s).1 <> Raise e) /\
  (forall (graph : ref) (s s' : state) (e : exn),
      reimport graph s = (Raise e, s') ->
      s' = s /\
      infer_step graph s =
      (Return graph,
       mkState (heap s) (log s ++ [mkLog DEBUG (inference_msg e)]) (passes s))) /\
  (forall (graph : ref) (s s' : state) (g : Graph) (e : exn),
      heap s !! graph = Some g ->
      (gs_cleanup g).2 = None ->
      (gs_toposort (gs_cleanup g).1).2 = None ->
      let h2 := <[graph := (gs_toposort (gs_cleanup g).1).1]> (heap s) in
      reimport graph (mkState h2 (log s) (S (passes s))) = (Raise e, s') ->
      pass graph s =
      finish_pass (length (nodes g)) graph
        (mkState h2 (log s ++ [mkLog DEBUG (inference_msg e)]) (S (passes s)))).
Proof.
  split; [|split].
  - intros graph s e. apply infer_step_never_raises.
  - intros graph s s' e Hr. split.
    + apply (reimport_Raise graph s s' e Hr).
    + apply (infer_step_caught graph s s' e Hr).
  - intros graph s s' g e Hg Hc Ht h2 Hr.
    rewrite (pass_sorted graph s g Hg Hc Ht). fold h2.
    rewrite (bind_Return_l _ _ _ _ _ (infer_step_caught graph _ s' e Hr)).
    reflexivity.
Qed.

(** C4 (amended). An exception that [fold_constants] raises in an iteration
    ends the loop and the call with that exception, whatever its class: a
    [TypeError] is logged at error level before it goes on, any other class
    goes on with nothing logged.  Exceptions raised by [cleanup] and
    [toposort] end the call in the same way.  The inference step is the only
    one whose failures stay inside. *)
Theorem fold_failure_propagates {L : GraphLibrary} :
  (forall (n : nat) (graph w : ref) (s s4 : state) (g gw : Graph) (e : exn),
      heap s !! graph = Some g ->
      (gs_cleanup g).2 = None ->
      (gs_toposort (gs_cleanup g).1).2 = None ->
      infer_step graph
        (mkState (<[graph := (gs_toposort (gs_cleanup g).1).1]> (heap s))
           (log s) (S (passes s))) = (Return w, s4) ->
      heap s4 !! w = Some gw ->
      (gs_fold_constants gw).2 = Some e ->
      passes_loop (S n) graph s =
      (Raise e,
       mkState (<[w := (gs_fold_constants gw).1]> (heap s4))
         (log s4 ++ (if is_TypeError e then [mkLog ERROR (fold_shapes_msg e)] else []))
         (passes s4))) /\
  (forall (graph : ref) (s s' : state) (e : exn),
      passes_loop 3 graph (logger DEBUG start_msg s).2 = (Raise e, s') ->
      iteratively_infer_shapes graph s = (Raise e, s')) /\
  (forall (n : nat) (graph : ref) (s : state) (g : Graph) (e : exn),
      heap s !! graph = Some g ->
      (gs_cleanup g).2 = Some e ->
      (passes_loop (S n) graph s).1 = Raise e) /\
  (forall (n : nat) (graph : ref) (s : state) (g : Graph) (e : exn),
      heap s !! graph = Some g ->
      (gs_cleanup g).2 = None ->
      (gs_toposort (gs_cleanup g).1).2 = Some e ->
      (passes_loop (S n) graph s).1 = Raise e) /\
  (forall (graph : ref) (s : state) (e : exn),
      (infer_step graph s).1 <> Raise e).
Proof.
  split; [|split; [|split; [|split]]].
  - intros n graph w s s4 g gw e Hg Hc Ht Hi Hw He.
    cbn [passes_loop]. apply bind_Raise_l.
    rewrite (pass_sorted graph s g Hg Hc Ht).
    rewrite (bind_Return_l _ _ _ _ _ Hi).
    apply (finish_pass_Raise _ w s4 gw e Hw He).
  - intros graph s s' e Hl. unfold iteratively_infer_shapes.
    unfold bind at 1. cbn [logger]. cbn [logger snd] in Hl.
    apply bind_Raise_l. exact Hl.
  - intros n graph s g e Hg Hc. cbn [passes_loop]. unfold bind at 1.
    unfold pass. unfold bind at 1. cbn [tick].
    set (s1 := mkState (heap s) (log s) (S (passes s))).
    assert (H1 : heap s1 !! graph = Some g) by exact Hg.
    rewrite (bind_Return_l _ _ _ _ _ (count_nodes_Some graph g s1 H1)).
    unfold bind at 1. rewrite (call_method_Some _ graph g s1 H1), Hc.
    reflexivity.
  - intros n graph s g e Hg Hc Ht. cbn [passes_loop]. unfold bind at 1.
    unfold pass. unfold bind at 1. cbn [tick].
    set (s1 := mkState (heap s) (log s) (S (passes s))).
    assert (H1 : heap s1 !! graph = Some g) by exact Hg.
    rewrite (bind_Return_l _ _ _ _ _ (count_nodes_Some graph g s1 H1)).
    unfold bind at 1. rewrite (call_method_Some _ graph g s1 H1), Hc.
    set (s2 := set_heap _ s1).
    assert (H2 : heap s2 !! graph = Some (gs_cleanup g).1) by apply lookup_insert_eq.
    unfold bind at 1. rewrite (call_method_Some _ graph _ s2 H2), Ht.
    reflexivity.
  - intros graph s e. apply infer_step_never_raises.
Qed.

(** C6 (amended). A call of [iteratively_infer_shapes] that completes
    normally evaluates to [None]: no graph is handed back, and what the
    iterations did can reach the caller only through the object it passed. *)
Theorem refinement_returns_none {L : GraphLibrary} (graph : ref) (s : state) (v : pyval) :
  (iteratively_infer_shapes graph s).1 = Return v -> v = VNone.
Proof.
  unfold iteratively_infer_shapes, bind. cbn [logger].
  destruct (passes_loop 3 graph _) as [[[]|e| |] s']; cbn; intros Hv;
    try discriminate.
  injection Hv as <-. reflexivity.
Qed.

(** ** The decay schedules *)

Section Schedules.
Local Open Scope R_scope.

Lemma py_min_Rmin (a b : R) : py_min a b = Rmin a b.
Proof.
  unfold py_min, Rmin. destruct (Rlt_dec b a), (Rle_dec a b); lra.
Qed.

Lemma py_truediv_nonzero (a b : Z) :
  b <> 0%Z -> py_truediv a b = Return (IZR a / IZR b).
Proof.
  intros Hb. unfold py_truediv. apply Z.eqb_neq in Hb. rewrite Hb. reflexivity.
Qed.

Lemma threshold_call_value (self : ThresholdDecay) (decay : R) (step total_steps : Z) :
  step <> (-10)%Z ->
  call self decay step total_steps =
  Return (Rmin decay (IZR (1 + step) / IZR (10 + step))).
Proof.
  intros Hne. unfold call, ThresholdDecay_call.
  rewrite (py_truediv_nonzero (1 + step) (10 + step)) by lia.
  cbn. rewrite py_min_Rmin. reflexivity.
Qed.

End Schedules.

(** C8 (amended). For every [step] other than [-10] the threshold schedule
    returns the smaller of [decay] and [(1 + step) / (10 + step)], whatever
    [total_steps] is; with [decay = 0.9] it returns [0.1] at step 0 and [0.9]
    at step 999.  The constant schedule returns [decay] for every input. *)
Theorem threshold_decay_value :
  (forall (self : ThresholdDecay) (decay : R) (step total_steps : Z),
      step <> (-10)%Z ->
      call self decay step total_steps =
      Return (Rmin decay (IZR (1 + step) / IZR (10 + step)))) /\
  call mkThresholdDecay (9 / 10)%R 0%Z 100%Z = Return (1 / 10)%R /\
  call mkThresholdDecay (9 / 10)%R 999%Z 100%Z = Return (9 / 10)%R /\
  (forall (self : ConstantDecay) (decay : R) (step total_steps : Z),
      call self decay step total_steps = Return decay).
Proof.
  split; [exact threshold_call_value|]. split; [|split].
  - rewrite threshold_call_value by lia. f_equal.
    change (1 + 0)%Z with 1%Z. change (10 + 0)%Z with 10%Z.
    apply Rmin_right. lra.
  - rewrite threshold_call_value by lia. f_equal.
    change (1 + 999)%Z with 1000%Z. change (10 + 999)%Z with 1009%Z.
    apply Rmin_left. lra.
  - intros self decay step total_steps. reflexivity.
Qed.

(** ** The theorems at work on the sample inputs *)

Lemma append_graphs_mismatch_witness :
  append_graphs (L := plain_library) 5 0 1 mismatched_graphs =
  (Raise (mkExn ValueError "Number of outputs (2) does not match number of inputs (1)"),
   mismatched_graphs).
Proof.
  apply (append_graphs_mismatch (L := plain_library) 5 0 1 graph_c graph_b mismatched_graphs).
  - reflexivity.
  - reflexivity.
  - cbn. lia.
Defined.

(** A graph appended to itself: the first loop never ends. *)
Lemma append_graphs_self {L : GraphLibrary} (g : ref) (A : Graph) (s : state) :
  heap s !! g = Some A ->
  length (outputs A) = length (inputs A) ->
  0 < length (nodes A) ->
  forall fuel, (append_graphs fuel g g s).1 = OutOfFuel.
Proof.
  intros Hg Hlen Hn fuel. unfold append_graphs.
  unfold bind at 1. rewrite (get_graph_Some g A s Hg).
  unfold bind at 1. rewrite (get_graph_Some g A s Hg).
  apply Nat.eqb_eq in Hlen. rewrite Hlen. cbn [negb].
  pose proof (extend_nodes_self fuel 0 g A s Hg Hn) as Hloop.
  unfold bind at 1.
  destruct (extend_nodes fuel 0 g g s) as [[[]|e| |] s']; cbn in Hloop;
    try discriminate.
  reflexivity.
Qed.

Lemma append_graphs_self_never_returns :
  ~ exists (fuel : nat) (v : pyval),
      (append_graphs (L := plain_library) fuel 0 0 two_graphs).1 = Return v.
Proof.
  intros (fuel & v & Hv).
  rewrite (append_graphs_self (L := plain_library) 0 graph_a two_graphs) in Hv.
  - discriminate.
  - reflexivity.
  - reflexivity.
  - cbn. lia.
Qed.

Lemma refinement_pass_bound_witness :
  exists s' : state,
    iteratively_infer_shapes (L := plain_library) 0 two_graphs = (Return VNone, s') /\
    passes s' = passes two_graphs + 1.
Proof.
  destruct (refinement_pass_bound (L := plain_library)) as (_ & _ & Hone).
  eexists.
  eapply (Hone 0 two_graphs _ _ graph_a graph_a).
  - vm_compute. reflexivity.
  - reflexivity.
  - vm_compute. reflexivity.
  - reflexivity.
Defined.

(** With a folding that removes a node each time, the loop takes all three
    iterations and stops there. *)
Example three_passes :
  passes (iteratively_infer_shapes (L := dropping_library) 0 (one_graph graph_d)).2 = 3.
Proof. vm_compute. reflexivity. Qed.

Lemma reimport_rebinds_local_witness :
  heap (iteratively_infer_shapes (L := dropping_library) 0 (one_graph graph_d)).2 !! 0
  = Some graph_d.
Proof.
  apply (reimport_rebinds_local (L := dropping_library) 2 0 (one_graph graph_d)
           graph_d graph_d graph_d graph_d); reflexivity.
Defined.

Lemma inference_failure_is_swallowed_witness :
  infer_step (L := no_inference_library) 0 (one_graph graph_d) =
  (Return 0,
   mkState (heap (one_graph graph_d))
     [mkLog DEBUG (inference_msg (mkExn RuntimeError "unsupported op"))] 0).
Proof.
  destruct (inference_failure_is_swallowed (L := no_inference_library)) as (_ & Hc & _).
  apply (Hc 0 (one_graph graph_d) (one_graph graph_d)
            (mkExn RuntimeError "unsupported op")).
  vm_compute. reflexivity.
Defined.

Lemma fold_failure_propagates_witness :
  (passes_loop (L := failing_fold_library TypeError) 3 0 (one_graph graph_d)).1 =
  Raise (mkExn TypeError "fold failed").
Proof.
  destruct (fold_failure_propagates (L := failing_fold_library TypeError)) as (Hf & _).
  erewrite (Hf 2 0 _ (one_graph graph_d) _ graph_d graph_d
              (mkExn TypeError "fold failed")).
  - reflexivity.
  - reflexivity.
  - reflexivity.
  - reflexivity.
  - vm_compute. reflexivity.
  - vm_compute. reflexivity.
  - reflexivity.
Defined.

(** A failure of the folding that is no [TypeError] reaches the caller all
    the same. *)
Lemma fold_value_error_surfaces :
  (iteratively_infer_shapes (L := failing_fold_library ValueError) 0 (one_graph graph_d)).1 =
    Raise (mkExn ValueError "fold failed") /\
  is_TypeError (mkExn ValueError "fold failed") = false.
Proof. split; vm_compute; reflexivity. Qed.

Lemma refinement_returns_none_witness :
  exists v : pyval,
    (iteratively_infer_shapes (L := plain_library) 0 two_graphs).1 = Return v /\
    v = VNone.
Proof.
  eexists. split; [vm_compute; reflexivity|].
  apply (refinement_returns_none (L := plain_library) 0 two_graphs VNone).
  vm_compute. reflexivity.
Defined.

(** The call hands back [None], and the folded graph is not in the caller's
    object either. *)
Lemma refinement_hands_back_no_graph :
  (iteratively_infer_shapes (L := dropping_library) 0 (one_graph graph_d)).1 = Return VNone /\
  (~ exists r : ref,
       (iteratively_infer_shapes (L := dropping_library) 0 (one_graph graph_d)).1 =
       Return (VGraph r)) /\
  heap (iteratively_infer_shapes (L := dropping_library) 0 (one_graph graph_d)).2 !! 0 =
    Some graph_d.
Proof.
  split; [vm_compute; reflexivity|]. split; [|vm_compute; reflexivity].
  intros [r Hr]. vm_compute in Hr. discriminate.
Qed.

Lemma threshold_decay_value_witness :
  call mkThresholdDecay (9 / 10)%R 0%Z 100%Z =
  Return (Rmin (9 / 10) (IZR (1 + 0) / IZR (10 + 0))).
Proof.
  destruct threshold_decay_value as (Hv & _).
  apply (Hv mkThresholdDecay (9 / 10)%R 0%Z 100%Z). lia.
Defined.

(** At step -10 the divisor is zero. *)
Lemma threshold_decay_pole :
  call mkThresholdDecay (9 / 10)%R (-10)%Z 100%Z =
  Raise (mkExn ZeroDivisionError "division by zero").
Proof. reflexivity. Qed.

(** * Further properties *)

(** ** [append_graphs] when lists can be shared *)

(** *** Steps of the by-reference model *)

Section ByReferenceSteps.
Local Open Scope list_scope.

Lemma ref_bind_Return_l {A B} (c : ByReference.St A) (k : A -> ByReference.St B)
    (s s' : ByReference.store) (a : A) :
  c s = (Return a, s') -> ByReference.bind c k s = k a s'.
Proof. intros Hc. unfold ByReference.bind. rewrite Hc. reflexivity. Qed.

Lemma ref_bind_Raise_l {A B} (c : ByReference.St A) (k : A -> ByReference.St B)
    (s s' : ByReference.store) (e : exn) :
  c s = (Raise e, s') -> ByReference.bind c k s = (Raise e, s').
Proof. intros Hc. unfold ByReference.bind. rewrite Hc. reflexivity. Qed.

Lemma ref_bind_OutOfFuel_l {A B} (c : ByReference.St A) (k : A -> ByReference.St B)
    (s s' : ByReference.store) :
  c s = (OutOfFuel, s') -> ByReference.bind c k s = (OutOfFuel, s').
Proof. intros Hc. unfold ByReference.bind. rewrite Hc. reflexivity. Qed.

Lemma ref_store_same (s : ByReference.store) :
  ByReference.mkStore (ByReference.graphs s) (ByReference.node_lists s)
    (ByReference.tensor_lists s) = s.
Proof. destruct s; reflexivity. Qed.

Lemma ref_get_object_Some (g : ref) (o : ByReference.graph_object) (s : ByReference.store) :
  ByReference.graphs s !! g = Some o -> ByReference.get_object g s = (Return o, s).
Proof. intros Hg. unfold ByReference.get_object. rewrite Hg. reflexivity. Qed.

Lemma ref_get_nodes_Some (l : ref) (ns : list Node) (s : ByReference.store) :
  ByReference.node_lists s !! l = Some ns -> ByReference.get_nodes l s = (Return ns, s).
Proof. intros Hl. unfold ByReference.get_nodes. rewrite Hl. reflexivity. Qed.

Lemma ref_get_tensors_Some (l : ref) (ts : list Tensor) (s : ByReference.store) :
  ByReference.tensor_lists s !! l = Some ts -> ByReference.get_tensors l s = (Return ts, s).
Proof. intros Hl. unfold ByReference.get_tensors. rewrite Hl. reflexivity. Qed.

Lemma ref_nodes_append_Some (g : ref) (o : ByReference.graph_object) (ns : list Node)
    (n : Node) (s : ByReference.store) :
  ByReference.graphs s !! g = Some o ->
  ByReference.node_lists s !! ByReference.nodes_at o = Some ns ->
  ByReference.nodes_append g n s =
  (Return tt,
   ByReference.mkStore (ByReference.graphs s)
     (<[ByReference.nodes_at o := ns ++ [n]]> (ByReference.node_lists s))
     (ByReference.tensor_lists s)).
Proof.
  intros Hg Hl. unfold ByReference.nodes_append.
  rewrite (ref_bind_Return_l _ _ _ _ _ (ref_get_object_Some g o s Hg)).
  rewrite (ref_bind_Return_l _ _ _ _ _ (ref_get_nodes_Some _ ns s Hl)).
  reflexivity.
Qed.

(** Reading one list object while appending to another copies the rest of
    the list that is read. *)
Lemma ref_extend_nodes_unshared (fuel : nat) :
  forall (i : nat) (iterated g1 : ref) (o1 : ByReference.graph_object)
         (nsA nsB : list Node) (s : ByReference.store),
    ByReference.graphs s !! g1 = Some o1 ->
    ByReference.node_lists s !! ByReference.nodes_at o1 = Some nsA ->
    ByReference.node_lists s !! iterated = Some nsB ->
    ByReference.nodes_at o1 <> iterated ->
    length nsB - i < fuel ->
    ByReference.extend_nodes fuel i iterated g1 s =
    (Return tt,
     ByReference.mkStore (ByReference.graphs s)
       (<[ByReference.nodes_at o1 := nsA ++ drop i nsB]> (ByReference.node_lists s))
       (ByReference.tensor_lists s)).
Proof.
  induction fuel as [|fuel IH]; intros i iterated g1 o1 nsA nsB s Hg HA HB Hne Hfuel;
    [lia|].
  cbn [ByReference.extend_nodes].
  rewrite (ref_bind_Return_l _ _ _ _ _ (ref_get_nodes_Some iterated nsB s HB)).
  destruct (nsB !! i) as [node|] eqn:Hi.
  - rewrite (ref_bind_Return_l _ _ _ _ _ (ref_nodes_append_Some g1 o1 nsA node s Hg HA)).
    pose proof (lookup_lt_Some _ _ _ Hi) as Hlt.
    rewrite (IH (S i) iterated g1 o1 (nsA ++ [node]) nsB).
    + cbn. rewrite insert_insert_eq, (drop_S _ _ _ Hi), <- app_assoc. reflexivity.
    + exact Hg.
    + cbn. apply lookup_insert_eq.
    + cbn. rewrite lookup_insert_ne by exact Hne. exact HB.
    + exact Hne.
    + lia.
  - apply lookup_ge_None in Hi. rewrite drop_ge by exact Hi.
    rewrite app_nil_r, insert_id by exact HA. rewrite ref_store_same. reflexivity.
Qed.

(** Reading the list object that is appended to never reaches its end,
    whichever graph objects hold it. *)
Lemma ref_extend_nodes_shared (fuel : nat) :
  forall (i : nat) (g1 : ref) (o1 : ByReference.graph_object)
         (ns : list Node) (s : ByReference.store),
    ByReference.graphs s !! g1 = Some o1 ->
    ByReference.node_lists s !! ByReference.nodes_at o1 = Some ns ->
    i < length ns ->
    exists s' ns',
      ByReference.extend_nodes fuel i (ByReference.nodes_at o1) g1 s = (OutOfFuel, s') /\
      ByReference.node_lists s' !! ByReference.nodes_at o1 = Some ns' /\
      length ns' = length ns + fuel.
Proof.
  induction fuel as [|fuel IH]; intros i g1 o1 ns s Hg Hl Hi.
  - exists s, ns. split; [reflexivity|]. split; [exact Hl|lia].
  - cbn [ByReference.extend_nodes].
    rewrite (ref_bind_Return_l _ _ _ _ _ (ref_get_nodes_Some _ ns s Hl)).
    destruct (lookup_lt_is_Some_2 _ _ Hi) as [node Hnode]. rewrite Hnode.
    rewrite (ref_bind_Return_l _ _ _ _ _ (ref_nodes_append_Some g1 o1 ns node s Hg Hl)).
    set (s1 := ByReference.mkStore _ _ _).
    assert (Hl1 : ByReference.node_lists s1 !! ByReference.nodes_at o1 = Some (ns ++ [node]))
      by apply lookup_insert_eq.
    assert (Hi1 : S i < length (ns ++ [node])) by (rewrite length_app; cbn; lia).
    destruct (IH (S i) g1 o1 (ns ++ [node]) s1 Hg Hl1 Hi1) as (s' & ns' & Hrun & Hl' & Hlen).
    exists s', ns'. split; [exact Hrun|]. split; [exact Hl'|].
    rewrite Hlen, length_app. cbn. lia.
Qed.

Lemma ref_for_each_identity (l : list (Tensor * Tensor)) :
  forall (g1 : ref) (o1 : ByReference.graph_object) (ns : list Node) (s : ByReference.store),
    ByReference.graphs s !! g1 = Some o1 ->
    ByReference.node_lists s !! ByReference.nodes_at o1 = Some ns ->
    ByReference.for_each l
      (fun '(out, inp) => ByReference.nodes_append g1 (identity_node out inp)) s =
    (Return tt,
     ByReference.mkStore (ByReference.graphs s)
       (<[ByReference.nodes_at o1 := ns ++ map (fun p => identity_node p.1 p.2) l]>
          (ByReference.node_lists s))
       (ByReference.tensor_lists s)).
Proof.
  induction l as [|[out inp] l IH]; intros g1 o1 ns s Hg Hl.
  - cbn. rewrite app_nil_r, insert_id by exact Hl. rewrite ref_store_same. reflexivity.
  - cbn [ByReference.for_each].
    rewrite (ref_bind_Return_l _ _ _ _ _
               (ref_nodes_append_Some g1 o1 ns (identity_node out inp) s Hg Hl)).
    rewrite (IH g1 o1 (ns ++ [identity_node out inp])).
    + cbn. rewrite insert_insert_eq, <- app_assoc. reflexivity.
    + exact Hg.
    + cbn. apply lookup_insert_eq.
Qed.

End ByReferenceSteps.

Section ByReferenceRuns.
Local Open Scope list_scope.
Context {L : GraphLibrary}.

(** The whole run when the two graphs share neither their node list nor
    their output list: the outcome is that of [toposort] on the stitched
    graph, and the list objects of the first graph hold the result. *)
Lemma ref_append_graphs_run (copies rebinds : bool) (fuel : nat) (g1 g2 : ref)
    (o1 o2 : ByReference.graph_object) (nsA nsB : list Node)
    (insA outsA insB outsB : list Tensor) (s : ByReference.store) :
  ByReference.graphs s !! g1 = Some o1 ->
  ByReference.graphs s !! g2 = Some o2 ->
  ByReference.node_lists s !! ByReference.nodes_at o1 = Some nsA ->
  ByReference.node_lists s !! ByReference.nodes_at o2 = Some nsB ->
  ByReference.tensor_lists s !! ByReference.inputs_at o1 = Some insA ->
  ByReference.tensor_lists s !! ByReference.outputs_at o1 = Some outsA ->
  ByReference.tensor_lists s !! ByReference.inputs_at o2 = Some insB ->
  ByReference.tensor_lists s !! ByReference.outputs_at o2 = Some outsB ->
  ByReference.nodes_at o1 <> ByReference.nodes_at o2 ->
  ByReference.outputs_at o1 <> ByReference.outputs_at o2 ->
  length outsA = length insB ->
  length nsB < fuel ->
  let ins' :=
    if decide (ByReference.inputs_at o1 = ByReference.outputs_at o1) then [] else insA in
  let stitched :=
    mkGraph (nsA ++ nsB ++ zip_with identity_node outsA insB) ins' outsB in
  let cleared := <[ByReference.outputs_at o1 := []]> (ByReference.tensor_lists s) in
  let out' := if copies then fresh (dom cleared) else ByReference.outputs_at o2 in
  let grown := <[ByReference.nodes_at o1 := nodes stitched]> (ByReference.node_lists s) in
  let nodes' := if rebinds then fresh (dom grown) else ByReference.nodes_at o1 in
  ByReference.append_graphs copies rebinds fuel g1 g2 s =
  (match (gs_toposort stitched).2 with
   | Some e => Raise e
   | None => Return (VGraph g1)
   end,
   ByReference.mkStore
     (<[g1 := ByReference.mkObject nodes' (ByReference.inputs_at o1) out']>
        (ByReference.graphs s))
     (<[nodes' := nodes (gs_toposort stitched).1]> grown)
     (if copies then <[out' := outsB]> cleared else cleared)).
Proof.
  intros Hg1 Hg2 HnA HnB HiA HoA HiB HoB Hnodes Houts Hlen Hfuel ins' stitched cleared out'
    grown nodes'.
  unfold ByReference.append_graphs.
  rewrite (ref_bind_Return_l _ _ _ _ _ (ref_get_object_Some g1 o1 s Hg1)).
  rewrite (ref_bind_Return_l _ _ _ _ _ (ref_get_tensors_Some _ outsA s HoA)).
  rewrite (ref_bind_Return_l _ _ _ _ _ (ref_get_object_Some g2 o2 s Hg2)).
  rewrite (ref_bind_Return_l _ _ _ _ _ (ref_get_tensors_Some _ insB s HiB)).
  apply Nat.eqb_eq in Hlen. rewrite Hlen. cbn [negb].
  rewrite (ref_bind_Return_l _ _ _ _ _ (ref_get_object_Some g2 o2 s Hg2)).
  rewrite (ref_bind_Return_l _ _ _ _ _
             (ref_extend_nodes_unshared fuel 0 _ g1 o1 nsA nsB s Hg1 HnA HnB Hnodes
                ltac:(lia))).
  rewrite drop_0.
  set (s1 := ByReference.mkStore _ _ _).
  assert (Hn1 : ByReference.node_lists s1 !! ByReference.nodes_at o1 = Some (nsA ++ nsB))
    by apply lookup_insert_eq.
  rewrite (ref_bind_Return_l _ _ _ _ _ (ref_get_object_Some g1 o1 s1 Hg1)).
  rewrite (ref_bind_Return_l _ _ _ _ _ (ref_get_tensors_Some _ outsA s1 HoA)).
  rewrite (ref_bind_Return_l _ _ _ _ _ (ref_get_object_Some g2 o2 s1 Hg2)).
  rewrite (ref_bind_Return_l _ _ _ _ _ (ref_get_tensors_Some _ insB s1 HiB)).
  rewrite (ref_bind_Return_l _ _ _ _ _ (ref_for_each_identity _ g1 o1 _ s1 Hg1 Hn1)).
  rewrite zip_with_identity. subst s1. cbn [ByReference.graphs ByReference.node_lists
    ByReference.tensor_lists]. rewrite insert_insert_eq, <- app_assoc.
  set (s2 := ByReference.mkStore _ _ _).
  rewrite (ref_bind_Return_l _ _ _ _ _ (ref_get_object_Some g1 o1 s2 Hg1)).
  unfold ByReference.bind at 1. cbn [ByReference.put_tensors].
  subst s2. cbn [ByReference.graphs ByReference.node_lists ByReference.tensor_lists].
  fold cleared. set (s3 := ByReference.mkStore _ _ cleared).
  assert (Hc2 : cleared !! ByReference.outputs_at o2 = Some outsB).
  { subst cleared. rewrite lookup_insert_ne by exact Houts. exact HoB. }
  assert (Hci : forall h : gmap ref (list Tensor),
            h !! ByReference.inputs_at o1 = cleared !! ByReference.inputs_at o1 ->
            h !! ByReference.inputs_at o1 = Some ins').
  { intros h ->. subst cleared ins'. destruct (decide _) as [Heq|Hne].
    - rewrite Heq. apply lookup_insert_eq.
    - rewrite lookup_insert_ne by congruence. exact HiA. }
  rewrite (ref_bind_Return_l _ _ _ _ _ (ref_get_object_Some g2 o2 s3 Hg2)).
  assert (Hfinish : forall s4 : ByReference.store,
    ByReference.graphs s4 =
      <[g1 := ByReference.mkObject (ByReference.nodes_at o1) (ByReference.inputs_at o1) out']>
        (ByReference.graphs s) ->
    ByReference.node_lists s4 =
      <[ByReference.nodes_at o1 := nsA ++ nsB ++ zip_with identity_node outsA insB]>
        (ByReference.node_lists s) ->
    ByReference.tensor_lists s4 !! ByReference.inputs_at o1 = Some ins' ->
    ByReference.tensor_lists s4 !! out' = Some outsB ->
    ByReference.bind (ByReference.toposort rebinds g1)
      (fun _ => ByReference.ret (VGraph g1)) s4 =
    (match (gs_toposort stitched).2 with
     | Some e => Raise e
     | None => Return (VGraph g1)
     end,
     ByReference.mkStore
       (<[g1 := ByReference.mkObject nodes' (ByReference.inputs_at o1) out']>
          (ByReference.graphs s))
       (<[nodes' := nodes (gs_toposort stitched).1]> grown)
       (ByReference.tensor_lists s4))).
  { intros s4 HG HN HI HO.
    assert (Hg4 : ByReference.graphs s4 !! g1 =
                  Some (ByReference.mkObject (ByReference.nodes_at o1)
                          (ByReference.inputs_at o1) out'))
      by (rewrite HG; apply lookup_insert_eq).
    assert (Hn4 : ByReference.node_lists s4 !! ByReference.nodes_at o1 =
                  Some (nsA ++ nsB ++ zip_with identity_node outsA insB))
      by (rewrite HN; apply lookup_insert_eq).
    assert (Htopo : ByReference.toposort rebinds g1 s4 =
      (match (gs_toposort stitched).2 with
       | Some e => Raise e
       | None => Return tt
       end,
       ByReference.mkStore
         (<[g1 := ByReference.mkObject nodes' (ByReference.inputs_at o1) out']>
            (ByReference.graphs s))
         (<[nodes' := nodes (gs_toposort stitched).1]> grown)
         (ByReference.tensor_lists s4))).
    { assert (Hview : ByReference.view g1 s4 = (Return stitched, s4)).
      { unfold ByReference.view.
        rewrite (ref_bind_Return_l _ _ _ _ _ (ref_get_object_Some g1 _ s4 Hg4)).
        cbn [ByReference.nodes_at ByReference.inputs_at ByReference.outputs_at].
        rewrite (ref_bind_Return_l _ _ _ _ _ (ref_get_nodes_Some _ _ s4 Hn4)).
        rewrite (ref_bind_Return_l _ _ _ _ _ (ref_get_tensors_Some _ _ s4 HI)).
        rewrite (ref_bind_Return_l _ _ _ _ _ (ref_get_tensors_Some _ _ s4 HO)).
        reflexivity. }
      unfold ByReference.toposort.
      rewrite (ref_bind_Return_l _ _ _ _ _ Hview).
      assert (Hstore :
        (if rebinds then
           ByReference.bind (ByReference.alloc_nodes (nodes (gs_toposort stitched).1))
             (fun l => ByReference.set_nodes_attr g1 l)
         else
           ByReference.bind (ByReference.get_object g1)
             (fun o => ByReference.put_nodes (ByReference.nodes_at o)
                         (nodes (gs_toposort stitched).1))) s4 =
        (Return tt,
         ByReference.mkStore
           (<[g1 := ByReference.mkObject nodes' (ByReference.inputs_at o1) out']>
              (ByReference.graphs s))
           (<[nodes' := nodes (gs_toposort stitched).1]> grown)
           (ByReference.tensor_lists s4))).
      { subst nodes'. destruct rebinds.
        - unfold ByReference.bind at 1. cbn [ByReference.alloc_nodes].
          unfold ByReference.set_nodes_attr.
          match goal with
          | |- ByReference.bind _ _ ?st = _ =>
              rewrite (ref_bind_Return_l _ _ _ _ _
                         (ref_get_object_Some g1 _ st Hg4))
          end.
          cbn [ByReference.graphs ByReference.node_lists ByReference.tensor_lists
               ByReference.inputs_at ByReference.outputs_at].
          rewrite HG, HN, insert_insert_eq. reflexivity.
        - rewrite (ref_bind_Return_l _ _ _ _ _ (ref_get_object_Some g1 _ s4 Hg4)).
          cbn [ByReference.nodes_at]. unfold ByReference.put_nodes.
          rewrite HG, HN. reflexivity. }
      rewrite (ref_bind_Return_l _ _ _ _ _ Hstore).
      destruct (gs_toposort stitched).2; reflexivity. }
    unfold ByReference.bind. rewrite Htopo.
    destruct (gs_toposort stitched).2; reflexivity. }
  destruct copies.
  - assert (Hassign :
      ByReference.bind (ByReference.get_tensors (ByReference.outputs_at o2))
        (fun ts => ByReference.bind (ByReference.alloc_tensors ts)
           (fun l => ByReference.set_outputs_attr g1 l)) s3 =
      (Return tt,
       ByReference.mkStore
         (<[g1 := ByReference.mkObject (ByReference.nodes_at o1)
                    (ByReference.inputs_at o1) out']> (ByReference.graphs s))
         (ByReference.node_lists s3) (<[out' := outsB]> cleared))).
    { rewrite (ref_bind_Return_l _ _ _ _ _ (ref_get_tensors_Some _ outsB s3 Hc2)).
      unfold ByReference.bind at 1. cbn [ByReference.alloc_tensors].
      unfold ByReference.set_outputs_attr.
      match goal with
      | |- ByReference.bind _ _ ?st = _ =>
          rewrite (ref_bind_Return_l _ _ _ _ _ (ref_get_object_Some g1 o1 st Hg1))
      end.
      reflexivity. }
    rewrite (ref_bind_Return_l _ _ _ _ _ Hassign).
    rewrite Hfinish; cbn [ByReference.graphs ByReference.node_lists ByReference.tensor_lists];
      try reflexivity.
    + apply Hci. apply lookup_insert_ne. subst out'. intros Heq.
      apply (is_fresh (dom cleared)). rewrite Heq. apply elem_of_dom.
      rewrite (Hci cleared eq_refl). eexists. reflexivity.
    + apply lookup_insert_eq.
  - assert (Hassign :
      ByReference.set_outputs_attr g1 (ByReference.outputs_at o2) s3 =
      (Return tt,
       ByReference.mkStore
         (<[g1 := ByReference.mkObject (ByReference.nodes_at o1)
                    (ByReference.inputs_at o1) out']> (ByReference.graphs s))
         (ByReference.node_lists s3) cleared)).
    { unfold ByReference.set_outputs_attr.
      rewrite (ref_bind_Return_l _ _ _ _ _ (ref_get_object_Some g1 o1 s3 Hg1)).
      reflexivity. }
    rewrite (ref_bind_Return_l _ _ _ _ _ Hassign).
    rewrite Hfinish; cbn [ByReference.graphs ByReference.node_lists ByReference.tensor_lists];
      try reflexivity.
    + apply Hci. reflexivity.
    + exact Hc2.
Qed.

End ByReferenceRuns.

(** C1 (amended). Two graphs that share neither their node list nor their
    output list, with as many declared outputs in the first as declared
    inputs in the second, and a [toposort] that succeeds on the stitched graph
    and only reorders its nodes: [append_graphs] returns its first argument,
    the same graph object, now holding the merged graph.  The list handed to
    [toposort] is the first graph's nodes, then the second graph's nodes in
    their order, then one identity node per positional pair, named
    [Identity_<out>_<inp>], with [out] as its single input and [inp] as its
    single output.  The node count of the result is the sum of the two node
    counts and the number of outputs of the first graph, and its declared
    outputs are the second graph's original outputs.  This holds whether the
    library stores the assigned output list or a copy of it, and whether its
    [toposort] sorts the node list in place or assigns a new one. *)
Theorem append_graphs_unshared {L : GraphLibrary} (copies rebinds : bool) (fuel : nat)
    (g1 g2 : ref) (o1 o2 : ByReference.graph_object) (nsA nsB : list Node)
    (insA outsA insB outsB : list Tensor) (s : ByReference.store) :
  ByReference.graphs s !! g1 = Some o1 ->
  ByReference.graphs s !! g2 = Some o2 ->
  ByReference.node_lists s !! ByReference.nodes_at o1 = Some nsA ->
  ByReference.node_lists s !! ByReference.nodes_at o2 = Some nsB ->
  ByReference.tensor_lists s !! ByReference.inputs_at o1 = Some insA ->
  ByReference.tensor_lists s !! ByReference.outputs_at o1 = Some outsA ->
  ByReference.tensor_lists s !! ByReference.inputs_at o2 = Some insB ->
  ByReference.tensor_lists s !! ByReference.outputs_at o2 = Some outsB ->
  ByReference.nodes_at o1 <> ByReference.nodes_at o2 ->
  ByReference.outputs_at o1 <> ByReference.outputs_at o2 ->
  length outsA = length insB ->
  length nsB < fuel ->
  let ins' :=
    if decide (ByReference.inputs_at o1 = ByReference.outputs_at o1) then [] else insA in
  let stitched :=
    mkGraph (nsA ++ nsB ++ zip_with identity_node outsA insB)%list ins' outsB in
  let merged := nodes (gs_toposort stitched).1 in
  (gs_toposort stitched).2 = None ->
  Permutation (nodes stitched) merged ->
  exists (s' : ByReference.store) (o1' : ByReference.graph_object),
    ByReference.append_graphs copies rebinds fuel g1 g2 s = (Return (VGraph g1), s') /\
    ByReference.graphs s' !! g1 = Some o1' /\
    ByReference.node_lists s' !! ByReference.nodes_at o1' = Some merged /\
    length merged = length nsA + length nsB + length outsA /\
    ByReference.tensor_lists s' !! ByReference.outputs_at o1' = Some outsB /\
    (forall i out inp,
        outsA !! i = Some out -> insB !! i = Some inp ->
        nodes stitched !! (length nsA + length nsB + i) =
        Some (mkNode "Identity"
                ("Identity_" ++ tensor_name out ++ "_" ++ tensor_name inp) [out] [inp])).
Proof.
  intros Hg1 Hg2 HnA HnB HiA HoA HiB HoB Hnodes Houts Hlen Hfuel ins' stitched merged
    Hok Hperm.
  pose proof (ref_append_graphs_run copies rebinds fuel g1 g2 o1 o2 nsA nsB insA outsA insB
                outsB s Hg1 Hg2 HnA HnB HiA HoA HiB HoB Hnodes Houts Hlen Hfuel) as Hrun.
  cbn zeta in Hrun. fold ins' stitched in Hrun. rewrite Hok in Hrun.
  eexists _, _. split; [exact Hrun|].
  cbn [ByReference.graphs ByReference.node_lists ByReference.tensor_lists].
  split; [apply lookup_insert_eq|].
  split; [apply lookup_insert_eq|]. split; [|split].
  - subst merged. rewrite <- (Permutation_length Hperm). subst stitched. cbn.
    rewrite !length_app, length_zip_with. lia.
  - cbn [ByReference.outputs_at]. destruct copies.
    + apply lookup_insert_eq.
    + rewrite lookup_insert_ne by exact Houts. exact HoB.
  - intros i out inp Ho Hi. subst stitched. cbn [nodes].
    rewrite app_assoc, lookup_app_r by (rewrite length_app; lia).
    rewrite length_app.
    replace (length nsA + length nsB + i - (length nsA + length nsB)) with i by lia.
    rewrite lookup_zip_with, Ho. cbn. rewrite Hi. reflexivity.
Qed.

(** X1. On two graphs that share neither their node list nor their output
    list: when [toposort] raises on the stitched graph, [append_graphs]
    raises that exception, and by then the first graph has been changed.  Its
    node list holds what [toposort] left of the stitched list, its former
    output list has been emptied, and its declared outputs are the second
    graph's.  Unlike the count check, this failure comes after the
    mutation. *)
Theorem append_graphs_toposort_failure {L : GraphLibrary} (copies rebinds : bool)
    (fuel : nat)
    (g1 g2 : ref) (o1 o2 : ByReference.graph_object) (nsA nsB : list Node)
    (insA outsA insB outsB : list Tensor) (s : ByReference.store) (e : exn) :
  ByReference.graphs s !! g1 = Some o1 ->
  ByReference.graphs s !! g2 = Some o2 ->
  ByReference.node_lists s !! ByReference.nodes_at o1 = Some nsA ->
  ByReference.node_lists s !! ByReference.nodes_at o2 = Some nsB ->
  ByReference.tensor_lists s !! ByReference.inputs_at o1 = Some insA ->
  ByReference.tensor_lists s !! ByReference.outputs_at o1 = Some outsA ->
  ByReference.tensor_lists s !! ByReference.inputs_at o2 = Some insB ->
  ByReference.tensor_lists s !! ByReference.outputs_at o2 = Some outsB ->
  ByReference.nodes_at o1 <> ByReference.nodes_at o2 ->
  ByReference.outputs_at o1 <> ByReference.outputs_at o2 ->
  length outsA = length insB ->
  length nsB < fuel ->
  let ins' :=
    if decide (ByReference.inputs_at o1 = ByReference.outputs_at o1) then [] else insA in
  let stitched :=
    mkGraph (nsA ++ nsB ++ zip_with identity_node outsA insB)%list ins' outsB in
  (gs_toposort stitched).2 = Some e ->
  exists (s' : ByReference.store) (o1' : ByReference.graph_object),
    ByReference.append_graphs copies rebinds fuel g1 g2 s = (Raise e, s') /\
    ByReference.graphs s' !! g1 = Some o1' /\
    ByReference.node_lists s' !! ByReference.nodes_at o1' =
      Some (nodes (gs_toposort stitched).1) /\
    ByReference.tensor_lists s' !! ByReference.outputs_at o1 = Some [] /\
    ByReference.tensor_lists s' !! ByReference.outputs_at o1' = Some outsB.
Proof.
  intros Hg1 Hg2 HnA HnB HiA HoA HiB HoB Hnodes Houts Hlen Hfuel ins' stitched Hfail.
  pose proof (ref_append_graphs_run copies rebinds fuel g1 g2 o1 o2 nsA nsB insA outsA insB
                outsB s Hg1 Hg2 HnA HnB HiA HoA HiB HoB Hnodes Houts Hlen Hfuel) as Hrun.
  cbn zeta in Hrun. fold ins' stitched in Hrun. rewrite Hfail in Hrun.
  eexists _, _. split; [exact Hrun|].
  cbn [ByReference.graphs ByReference.node_lists ByReference.tensor_lists].
  split; [apply lookup_insert_eq|]. split; [apply lookup_insert_eq|].
  assert (Hfresh : forall h : gmap ref (list Tensor),
            h !! ByReference.outputs_at o1 = Some [] ->
            fresh (dom h) <> ByReference.outputs_at o1).
  { intros h Hh Heq. apply (is_fresh (dom h)). rewrite Heq. apply elem_of_dom.
    eexists. exact Hh. }
  split.
  - destruct copies.
    + rewrite lookup_insert_ne by (apply Hfresh, lookup_insert_eq).
      apply lookup_insert_eq.
    + apply lookup_insert_eq.
  - cbn [ByReference.outputs_at]. destruct copies.
    + apply lookup_insert_eq.
    + rewrite lookup_insert_ne by exact Houts. exact HoB.
Qed.

(** X17. Two graph objects, the same or not, that hold one and the same
    node list with at least one node in it: [append_graphs] passes the count
    check and never returns.  The first loop reads the list it appends to;
    after any number of rounds it is still running and the shared list has
    one more node per round. *)
Theorem append_graphs_shared_nodes {L : GraphLibrary} (copies rebinds : bool) (fuel : nat)
    (g1 g2 : ref) (o1 o2 : ByReference.graph_object) (ns : list Node)
    (outsA insB : list Tensor) (s : ByReference.store) :
  ByReference.graphs s !! g1 = Some o1 ->
  ByReference.graphs s !! g2 = Some o2 ->
  ByReference.nodes_at o1 = ByReference.nodes_at o2 ->
  ByReference.node_lists s !! ByReference.nodes_at o1 = Some ns ->
  ByReference.tensor_lists s !! ByReference.outputs_at o1 = Some outsA ->
  ByReference.tensor_lists s !! ByReference.inputs_at o2 = Some insB ->
  length outsA = length insB ->
  0 < length ns ->
  exists (s' : ByReference.store) (ns' : list Node),
    ByReference.append_graphs copies rebinds fuel g1 g2 s = (OutOfFuel, s') /\
    ByReference.node_lists s' !! ByReference.nodes_at o2 = Some ns' /\
    length ns' = length ns + fuel.
Proof.
  intros Hg1 Hg2 Hshared Hns HoA HiB Hlen Hpos.
  unfold ByReference.append_graphs.
  rewrite (ref_bind_Return_l _ _ _ _ _ (ref_get_object_Some g1 o1 s Hg1)).
  rewrite (ref_bind_Return_l _ _ _ _ _ (ref_get_tensors_Some _ outsA s HoA)).
  rewrite (ref_bind_Return_l _ _ _ _ _ (ref_get_object_Some g2 o2 s Hg2)).
  rewrite (ref_bind_Return_l _ _ _ _ _ (ref_get_tensors_Some _ insB s HiB)).
  apply Nat.eqb_eq in Hlen. rewrite Hlen. cbn [negb].
  rewrite (ref_bind_Return_l _ _ _ _ _ (ref_get_object_Some g2 o2 s Hg2)).
  rewrite <- Hshared.
  destruct (ref_extend_nodes_shared fuel 0 g1 o1 ns s Hg1 Hns Hpos)
    as (s' & ns' & Hrun & Hns' & Hgrow).
  exists s', ns'. split; [|split; [exact Hns'|exact Hgrow]].
  apply ref_bind_OutOfFuel_l. exact Hrun.
Qed.

(** ** Relations that a whole computation respects *)

Section Follows.
Context (R : state -> state -> Prop) `{!PreOrder R}.



Lemma follows_out_of_fuel {A} (Q : A -> Prop) : follows R out_of_fuel Q.
Proof. intros s. split; [reflexivity|]. cbn. intros b [=]. Qed.

Lemma follows_weaken {A} (c : M A) (Q Q' : A -> Prop) :
  follows R c Q -> (forall a, Q a -> Q' a) -> follows R c Q'.
Proof.
  intros Hc HQ s. destruct (Hc s) as [Hr Ha]. split; [exact Hr|].
  intros a Hv. apply HQ, Ha, Hv.
Qed.

Lemma follows_bind {A B} (c : M A) (k : A -> M B) (Q : A -> Prop) (Q' : B -> Prop) :
  follows R c Q -> (forall a, Q a -> follows R (k a) Q') -> follows R (bind c k) Q'.
Proof.
  intros Hc Hk s. destruct (Hc s) as [Hr Ha]. unfold bind.
  destruct (c s) as [[a|e| |] s1]; cbn in *;
    try (split; [exact Hr|intros b [=]]).
  destruct (Hk a (Ha a eq_refl) s1) as [Hr1 Hb].
  split; [etransitivity; eassumption|exact Hb].
Qed.


Lemma follows_get_graph (r : ref) : follows R (get_graph r) (fun _ => True).
Proof.
  intros s. unfold get_graph.
  destruct (heap s !! r); (split; [reflexivity|intros; exact I]).
Qed.

Lemma follows_lift_result {A} (r : exn + A) : follows R (lift_result r) (fun _ => True).
Proof. destruct r; intros s; (split; [reflexivity|intros; exact I]). Qed.

(** A step that only moves the state along [R]. *)
Lemma follows_step {A} (c : M A) :
  (forall s, R s (c s).2) -> follows R c (fun _ => True).
Proof. intros Hc s. split; [apply Hc|intros; exact I]. Qed.

(** Storing into the object behind [r], when [R] allows that. *)
Lemma follows_modify_graph (r : ref) (f : Graph -> Graph) :
  (forall s v, R s (set_heap (<[r := v]> (heap s)) s)) ->
  follows R (modify_graph r f) (fun _ => True).
Proof.
  intros Hput. unfold modify_graph.
  apply (follows_bind _ _ _ _ (follows_get_graph r)). intros v _.
  apply follows_step. intros s. apply Hput.
Qed.


End Follows.

#[export] Instance outside_preorder (g : ref) : PreOrder (outside g).
Proof.
  split.
  - intros s r _. reflexivity.
  - intros s1 s2 s3 H12 H23 r Hr. rewrite (H23 r Hr). apply (H12 r Hr).
Qed.

#[export] Instance same_log_preorder : PreOrder same_log.
Proof.
  split.
  - intros s. split; reflexivity.
  - intros s1 s2 s3 [Hl12 Hp12] [Hl23 Hp23]. split; congruence.
Qed.

#[export] Instance log_grows_preorder : PreOrder log_grows.
Proof.
  split.
  - intros s. exists []. rewrite app_nil_r. reflexivity.
  - intros s1 s2 s3 [l12 H12] [l23 H23]. exists (l12 ++ l23)%list.
    rewrite H23, H12, <- app_assoc. reflexivity.
Qed.


(** ** [append_graphs] on one object passed twice *)

(** The first loop on one object: after [fuel] rounds it is still running
    and the list has [fuel] more nodes. *)
Lemma extend_nodes_self_grows (fuel : nat) :
  forall (i : nat) (g : ref) (A : Graph) (s : state),
    heap s !! g = Some A ->
    i < length (nodes A) ->
    (extend_nodes fuel i g g s).1 = OutOfFuel /\
    exists A', heap (extend_nodes fuel i g g s).2 !! g = Some A' /\
               length (nodes A') = length (nodes A) + fuel.
Proof.
  induction fuel as [|fuel IH]; intros i g A s Hg Hi.
  - cbn. split; [reflexivity|]. exists A. split; [exact Hg|lia].
  - cbn [extend_nodes]. rewrite (bind_Return_l _ _ _ _ _ (get_graph_Some g A s Hg)).
    destruct (lookup_lt_is_Some_2 _ _ Hi) as [node Hnode]. rewrite Hnode.
    unfold nodes_append.
    rewrite (bind_Return_l _ _ _ _ _ (modify_graph_Some g _ A s Hg)).
    set (A1 := set_nodes (nodes A ++ [node]) A). set (s1 := set_heap _ s).
    assert (H1 : heap s1 !! g = Some A1) by apply lookup_insert_eq.
    assert (Hi1 : S i < length (nodes A1)).
    { subst A1. cbn. rewrite length_app. cbn. lia. }
    destruct (IH (S i) g A1 s1 H1 Hi1) as (Hout & A' & HA' & Hlen).
    split; [exact Hout|]. exists A'. split; [exact HA'|].
    rewrite Hlen. subst A1. cbn. rewrite length_app. cbn. lia.
Qed.

Lemma bind_OutOfFuel_l {A B} (c : M A) (k : A -> M B) (s s' : state) :
  c s = (OutOfFuel, s') -> bind c k s = (OutOfFuel, s').
Proof. intros Hc. unfold bind. rewrite Hc. reflexivity. Qed.

(** X3. A graph object with at least one node and as many declared outputs
    as inputs, appended to itself: the call passes the count check and never
    returns.  The first loop reads the list it appends to, so after any
    number of rounds it is still running, and the node list has grown by one
    node per round. *)
Theorem append_graphs_self_grows {L : GraphLibrary}
    (fuel : nat) (g : ref) (A : Graph) (s : state) :
  heap s !! g = Some A ->
  length (outputs A) = length (inputs A) ->
  0 < length (nodes A) ->
  (append_graphs fuel g g s).1 = OutOfFuel /\
  exists A', heap (append_graphs fuel g g s).2 !! g = Some A' /\
             length (nodes A') = length (nodes A) + fuel.
Proof.
  intros Hg Hlen Hn. unfold append_graphs.
  rewrite (bind_Return_l _ _ _ _ _ (get_graph_Some g A s Hg)).
  rewrite (bind_Return_l _ _ _ _ _ (get_graph_Some g A s Hg)).
  apply Nat.eqb_eq in Hlen. rewrite Hlen. cbn [negb].
  destruct (extend_nodes_self_grows fuel 0 g A s Hg Hn) as (Hout & A' & HA' & Hlen').
  destruct (extend_nodes fuel 0 g g s) as [o s'] eqn:Hloop. cbn in Hout, HA'.
  subst o. rewrite (bind_OutOfFuel_l _ _ _ _ Hloop).
  split; [reflexivity|]. exists A'. split; [exact HA'|exact Hlen'].
Qed.

(** X4. A graph object without nodes appended to itself: the call goes
    through, but [outputs.clear()] empties the very list that is then
    assigned back, so the graph ends with no declared output at all.  What
    [toposort] receives is one identity node per (output, input) pair of the
    graph and an empty output list. *)
Theorem append_graphs_self_empty {L : GraphLibrary}
    (fuel : nat) (g : ref) (A : Graph) (s : state) :
  heap s !! g = Some A ->
  nodes A = [] ->
  length (outputs A) = length (inputs A) ->
  0 < fuel ->
  let stitched :=
    mkGraph (zip_with identity_node (outputs A) (inputs A)) (inputs A) [] in
  append_graphs fuel g g s =
  (match (gs_toposort stitched).2 with
   | Some e => Raise e
   | None => Return (VGraph g)
   end,
   set_heap (<[g := (gs_toposort stitched).1]> (heap s)) s).
Proof.
  intros Hg Hnodes Hlen Hfuel stitched. unfold append_graphs.
  rewrite (bind_Return_l _ _ _ _ _ (get_graph_Some g A s Hg)).
  rewrite (bind_Return_l _ _ _ _ _ (get_graph_Some g A s Hg)).
  apply Nat.eqb_eq in Hlen. rewrite Hlen. cbn [negb].
  assert (Hloop : extend_nodes fuel 0 g g s = (Return tt, s)).
  { destruct fuel as [|fuel]; [lia|]. cbn [extend_nodes].
    rewrite (bind_Return_l _ _ _ _ _ (get_graph_Some g A s Hg)).
    rewrite Hnodes. reflexivity. }
  rewrite (bind_Return_l _ _ _ _ _ Hloop).
  rewrite (bind_Return_l _ _ _ _ _ (get_graph_Some g A s Hg)).
  rewrite (bind_Return_l _ _ _ _ _ (get_graph_Some g A s Hg)).
  rewrite (bind_Return_l _ _ _ _ _ (for_each_identity _ g A s Hg)).
  set (A2 := set_nodes _ A). set (s2 := set_heap _ s).
  assert (Hs2 : heap s2 !! g = Some A2) by apply lookup_insert_eq.
  rewrite (bind_Return_l _ _ _ _ _ (modify_graph_Some g _ A2 s2 Hs2)).
  set (s3 := set_heap _ s2).
  assert (Hs3 : heap s3 !! g = Some (set_outputs [] A2)) by apply lookup_insert_eq.
  rewrite (bind_Return_l _ _ _ _ _ (get_graph_Some g _ s3 Hs3)).
  rewrite (bind_Return_l _ _ _ _ _ (modify_graph_Some g _ _ s3 Hs3)).
  set (s4 := set_heap _ s3).
  assert (Hs4 : heap s4 !! g = Some stitched).
  { subst s4. rewrite set_heap_heap, lookup_insert_eq. f_equal.
    subst A2 stitched. cbn. rewrite Hnodes, zip_with_identity. reflexivity. }
  unfold bind. rewrite (call_method_Some _ g stitched s4 Hs4).
  assert (Hfinal : set_heap (<[g := (gs_toposort stitched).1]> (heap s4)) s4 =
                   set_heap (<[g := (gs_toposort stitched).1]> (heap s)) s).
  { subst s4 s3 s2. rewrite !set_heap_heap, !set_heap_twice.
    rewrite !insert_insert_eq. reflexivity. }
  rewrite Hfinal. destruct (gs_toposort stitched).2; reflexivity.
Qed.

(** ** [append_graphs] twice *)

(** X5. Two appends in a row onto the same first graph, of a second and a
    third graph, when no two of the three share a node list or an output
    list, the first graph's input list is none of the output lists and the
    third graph's input list is not the first graph's output list; [toposort]
    succeeds on the two stitched graphs and only reorders their nodes.  Both
    calls return the first graph.  The second call pairs the outputs taken
    over from the second graph with the inputs of the third; the first graph
    ends with the nodes of all three graphs and one identity node per output
    of the first and per output of the second, and with the third graph's
    declared outputs. *)
Theorem append_graphs_twice {L : GraphLibrary} (copies rebinds : bool) (fuel : nat)
    (g1 g2 g3 : ref) (o1 o2 o3 : ByReference.graph_object) (nsA nsB nsC : list Node)
    (insA outsA insB outsB insC outsC : list Tensor) (s : ByReference.store) :
  ByReference.graphs s !! g1 = Some o1 ->
  ByReference.graphs s !! g2 = Some o2 ->
  ByReference.graphs s !! g3 = Some o3 ->
  ByReference.node_lists s !! ByReference.nodes_at o1 = Some nsA ->
  ByReference.node_lists s !! ByReference.nodes_at o2 = Some nsB ->
  ByReference.node_lists s !! ByReference.nodes_at o3 = Some nsC ->
  ByReference.tensor_lists s !! ByReference.inputs_at o1 = Some insA ->
  ByReference.tensor_lists s !! ByReference.outputs_at o1 = Some outsA ->
  ByReference.tensor_lists s !! ByReference.inputs_at o2 = Some insB ->
  ByReference.tensor_lists s !! ByReference.outputs_at o2 = Some outsB ->
  ByReference.tensor_lists s !! ByReference.inputs_at o3 = Some insC ->
  ByReference.tensor_lists s !! ByReference.outputs_at o3 = Some outsC ->
  ByReference.nodes_at o1 <> ByReference.nodes_at o2 ->
  ByReference.nodes_at o1 <> ByReference.nodes_at o3 ->
  ByReference.outputs_at o1 <> ByReference.outputs_at o2 ->
  ByReference.outputs_at o1 <> ByReference.outputs_at o3 ->
  ByReference.outputs_at o2 <> ByReference.outputs_at o3 ->
  ByReference.inputs_at o1 <> ByReference.outputs_at o1 ->
  ByReference.inputs_at o1 <> ByReference.outputs_at o2 ->
  ByReference.inputs_at o3 <> ByReference.outputs_at o1 ->
  length outsA = length insB ->
  length outsB = length insC ->
  length nsB < fuel ->
  length nsC < fuel ->
  let stitched1 :=
    mkGraph (nsA ++ nsB ++ zip_with identity_node outsA insB)%list insA outsB in
  let merged1 := nodes (gs_toposort stitched1).1 in
  let stitched2 :=
    mkGraph (merged1 ++ nsC ++ zip_with identity_node outsB insC)%list insA outsC in
  let merged2 := nodes (gs_toposort stitched2).1 in
  (gs_toposort stitched1).2 = None ->
  Permutation (nodes stitched1) merged1 ->
  (gs_toposort stitched2).2 = None ->
  Permutation (nodes stitched2) merged2 ->
  exists (s1 s2 : ByReference.store) (o1' : ByReference.graph_object),
    ByReference.append_graphs copies rebinds fuel g1 g2 s = (Return (VGraph g1), s1) /\
    ByReference.append_graphs copies rebinds fuel g1 g3 s1 = (Return (VGraph g1), s2) /\
    ByReference.graphs s2 !! g1 = Some o1' /\
    ByReference.node_lists s2 !! ByReference.nodes_at o1' = Some merged2 /\
    length merged2 =
      length nsA + length nsB + length nsC + length outsA + length outsB /\
    ByReference.tensor_lists s2 !! ByReference.outputs_at o1' = Some outsC.
Proof.
  intros Hg1 Hg2 Hg3 HnA HnB HnC HiA HoA HiB HoB HiC HoC
    Hn12 Hn13 Ho12 Ho13 Ho23 Hio1 Hio2 Hi3o1 HlenAB HlenBC HfB HfC
    stitched1 merged1 stitched2 merged2 Hok1 Hperm1 Hok2 Hperm2.
  assert (Hg13 : g1 <> g3).
  { intros Heq. subst g3. rewrite Hg1 in Hg3. injection Hg3 as ->. contradiction. }
  pose proof (ref_append_graphs_run copies rebinds fuel g1 g2 o1 o2 nsA nsB insA outsA insB
                outsB s Hg1 Hg2 HnA HnB HiA HoA HiB HoB Hn12 Ho12 HlenAB HfB) as Hrun1.
  cbn zeta in Hrun1.
  destruct (decide (ByReference.inputs_at o1 = ByReference.outputs_at o1))
    as [Heq|_]; [contradiction|].
  fold stitched1 in Hrun1. rewrite Hok1 in Hrun1. fold merged1 in Hrun1.
  set (cleared := <[ByReference.outputs_at o1 := []]> (ByReference.tensor_lists s)) in Hrun1.
  set (out' := if copies then fresh (dom cleared) else ByReference.outputs_at o2) in Hrun1.
  set (tl1 := if copies then <[out' := outsB]> cleared else cleared) in Hrun1.
  set (grown := <[ByReference.nodes_at o1 := nodes stitched1]> (ByReference.node_lists s))
    in Hrun1.
  set (nodes' := if rebinds then fresh (dom grown) else ByReference.nodes_at o1) in Hrun1.
  set (o11 := ByReference.mkObject nodes' (ByReference.inputs_at o1) out') in Hrun1.
  set (s1 := ByReference.mkStore _ _ tl1) in Hrun1.
  assert (Hgrown3 : grown !! ByReference.nodes_at o3 = Some nsC).
  { subst grown. rewrite lookup_insert_ne by exact Hn13. exact HnC. }
  assert (Hn13' : nodes' <> ByReference.nodes_at o3).
  { subst nodes'. destruct rebinds; [|exact Hn13]. intros Heq.
    apply (is_fresh (dom grown)). rewrite Heq. apply elem_of_dom.
    eexists. exact Hgrown3. }
  assert (Hkeep : forall (l : ref) (ts : list Tensor),
            l <> ByReference.outputs_at o1 ->
            ByReference.tensor_lists s !! l = Some ts -> tl1 !! l = Some ts).
  { intros l ts Hl Hts.
    assert (Hc : cleared !! l = Some ts).
    { subst cleared. rewrite lookup_insert_ne by congruence. exact Hts. }
    subst tl1. destruct copies; [|exact Hc].
    rewrite lookup_insert_ne; [exact Hc|]. subst out'. intros Heq.
    apply (is_fresh (dom cleared)). rewrite Heq. apply elem_of_dom.
    eexists. exact Hc. }
  assert (Hout' : tl1 !! out' = Some outsB).
  { subst tl1 out'. destruct copies; [apply lookup_insert_eq|].
    subst cleared. rewrite lookup_insert_ne by exact Ho12. exact HoB. }
  assert (Hout3 : out' <> ByReference.outputs_at o3).
  { subst out'. destruct copies; [|exact Ho23]. intros Heq.
    apply (is_fresh (dom cleared)). rewrite Heq. apply elem_of_dom.
    subst cleared. rewrite lookup_insert_ne by exact Ho13. eexists. exact HoC. }
  assert (Hin1 : ByReference.inputs_at o1 <> out').
  { subst out'. destruct copies; [|exact Hio2]. intros Heq.
    apply (is_fresh (dom cleared)). rewrite <- Heq. apply elem_of_dom.
    subst cleared. rewrite lookup_insert_ne by congruence. eexists. exact HiA. }
  assert (H1g1 : ByReference.graphs s1 !! g1 = Some o11) by apply lookup_insert_eq.
  assert (H1g3 : ByReference.graphs s1 !! g3 = Some o3).
  { cbn. rewrite lookup_insert_ne by exact Hg13. exact Hg3. }
  assert (H1nA : ByReference.node_lists s1 !! ByReference.nodes_at o11 = Some merged1)
    by apply lookup_insert_eq.
  assert (H1nC : ByReference.node_lists s1 !! ByReference.nodes_at o3 = Some nsC).
  { cbn. rewrite lookup_insert_ne by exact Hn13'. exact Hgrown3. }
  assert (H1iA : ByReference.tensor_lists s1 !! ByReference.inputs_at o11 = Some insA)
    by (apply Hkeep; assumption).
  assert (H1iC : ByReference.tensor_lists s1 !! ByReference.inputs_at o3 = Some insC)
    by (apply Hkeep; assumption).
  assert (H1oC : ByReference.tensor_lists s1 !! ByReference.outputs_at o3 = Some outsC)
    by (apply Hkeep; congruence).
  pose proof (ref_append_graphs_run copies rebinds fuel g1 g3 o11 o3 merged1 nsC insA outsB
                insC outsC s1 H1g1 H1g3 H1nA H1nC H1iA Hout' H1iC H1oC Hn13' Hout3 HlenBC HfC)
    as Hrun2.
  cbn zeta in Hrun2. cbn [ByReference.inputs_at ByReference.outputs_at
    ByReference.nodes_at o11] in Hrun2.
  destruct (decide (ByReference.inputs_at o1 = out')) as [Heq|_]; [contradiction|].
  fold stitched2 in Hrun2. rewrite Hok2 in Hrun2. fold merged2 in Hrun2.
  eexists s1, _, _. split; [exact Hrun1|]. split; [exact Hrun2|].
  cbn [ByReference.graphs ByReference.node_lists ByReference.tensor_lists].
  split; [apply lookup_insert_eq|]. split; [apply lookup_insert_eq|]. split.
  - subst merged2. rewrite <- (Permutation_length Hperm2). subst stitched2. cbn.
    rewrite !length_app, length_zip_with. subst merged1.
    rewrite <- (Permutation_length Hperm1). subst stitched1. cbn.
    rewrite !length_app, length_zip_with. lia.
  - cbn [ByReference.outputs_at]. destruct copies.
    + apply lookup_insert_eq.
    + rewrite lookup_insert_ne by congruence. exact H1oC.
Qed.

(** ** Where exceptions come from *)

Lemma raises_only_ret (P : exn -> Prop) {A} (a : A) : raises_only P (ret a).
Proof. intros s e [=]. Qed.

Lemma raises_only_out_of_fuel (P : exn -> Prop) {A} : raises_only P (@out_of_fuel A).
Proof. intros s e [=]. Qed.

Lemma raises_only_raise (P : exn -> Prop) {A} (e : exn) : P e -> raises_only P (@raise A e).
Proof. intros He s e' [= <-]. exact He. Qed.

Lemma raises_only_bind (P : exn -> Prop) {A B} (c : M A) (k : A -> M B) :
  raises_only P c -> (forall a, raises_only P (k a)) -> raises_only P (bind c k).
Proof.
  intros Hc Hk s e. unfold bind. specialize (Hc s).
  destruct (c s) as [[a|e'| |] s1]; cbn in *; try discriminate.
  - apply Hk.
  - intros [= <-]. apply Hc. reflexivity.
Qed.

Lemma raises_only_try_except (P : exn -> Prop) {A} (c : M A) (catches : exn -> bool)
    (h : exn -> M A) :
  raises_only P c -> (forall e, P e -> raises_only P (h e)) ->
  raises_only P (try_except c catches h).
Proof.
  intros Hc Hh s e. unfold try_except. specialize (Hc s).
  destruct (c s) as [[a|e'| |] s1]; cbn in *; try discriminate.
  destruct (catches e'); [apply Hh, Hc; reflexivity|].
  cbn. intros [= <-]. apply Hc. reflexivity.
Qed.

Lemma raises_only_get_graph (P : exn -> Prop) (r : ref) : raises_only P (get_graph r).
Proof. intros s e. unfold get_graph. destruct (heap s !! r); discriminate. Qed.

Lemma raises_only_modify_graph (P : exn -> Prop) (r : ref) (f : Graph -> Graph) :
  raises_only P (modify_graph r f).
Proof.
  unfold modify_graph. apply raises_only_bind; [apply raises_only_get_graph|].
  intros g s e [=].
Qed.

Lemma raises_only_logger (P : exn -> Prop) (lvl : log_level) (msg : string) :
  raises_only P (logger lvl msg).
Proof. intros s e [=]. Qed.

Lemma raises_only_count_nodes (P : exn -> Prop) (r : ref) : raises_only P (count_nodes r).
Proof.
  unfold count_nodes. apply raises_only_bind; [apply raises_only_get_graph|].
  intros g. apply raises_only_ret.
Qed.

(** A method call raises what the method raises. *)
Lemma raises_only_call_method (P : exn -> Prop) (m : Graph -> Graph * option exn) (r : ref) :
  (forall g e, (m g).2 = Some e -> P e) -> raises_only P (call_method m r).
Proof.
  intros Hm. unfold call_method.
  apply raises_only_bind; [apply raises_only_get_graph|]. intros g.
  apply raises_only_bind; [intros s e [=]|]. intros _.
  destruct (m g).2 as [e|] eqn:He; [|apply raises_only_ret].
  apply raises_only_raise. apply (Hm g e He).
Qed.

Lemma raises_only_for_each (P : exn -> Prop) {A} (l : list A) (body : A -> M unit) :
  (forall x, raises_only P (body x)) -> raises_only P (for_each l body).
Proof.
  intros Hbody. induction l as [|x l IH]; cbn [for_each].
  - apply raises_only_ret.
  - apply raises_only_bind; [apply Hbody|]. intros _. exact IH.
Qed.

Lemma raises_only_extend_nodes (P : exn -> Prop) (fuel : nat) :
  forall i graph2 merged_graph, raises_only P (extend_nodes fuel i graph2 merged_graph).
Proof.
  induction fuel as [|fuel IH]; intros i graph2 merged_graph; cbn [extend_nodes].
  - apply raises_only_out_of_fuel.
  - apply raises_only_bind; [apply raises_only_get_graph|]. intros g2.
    destruct (nodes g2 !! i); [|apply raises_only_ret].
    apply raises_only_bind; [apply raises_only_modify_graph|]. intros _. apply IH.
Qed.

(** X6. An exception that leaves [append_graphs] is either the [ValueError]
    of the count check, built from two different counts, or an exception
    that [toposort] raised: nothing else in the function can fail. *)
Theorem append_graphs_raises {L : GraphLibrary}
    (fuel : nat) (graph1 graph2 : ref) (s : state) (e : exn) :
  (append_graphs fuel graph1 graph2 s).1 = Raise e ->
  (exists n m : nat, n <> m /\ e = mkExn ValueError (mismatch_msg n m)) \/
  (exists g : Graph, (gs_toposort g).2 = Some e).
Proof.
  revert s e. change (raises_only
    (fun e => (exists n m : nat, n <> m /\ e = mkExn ValueError (mismatch_msg n m)) \/
              (exists g : Graph, (gs_toposort g).2 = Some e))
    (append_graphs fuel graph1 graph2)).
  unfold append_graphs.
  apply raises_only_bind; [apply raises_only_get_graph|]. intros g1.
  apply raises_only_bind; [apply raises_only_get_graph|]. intros g2.
  destruct (length (outputs g1) =? length (inputs g2)) eqn:Hlen; cbn [negb].
  - apply raises_only_bind; [apply raises_only_extend_nodes|]. intros _.
    apply raises_only_bind; [apply raises_only_get_graph|]. intros g1'.
    apply raises_only_bind; [apply raises_only_get_graph|]. intros g2'.
    apply raises_only_bind.
    { apply raises_only_for_each. intros [out inp]. apply raises_only_modify_graph. }
    intros _.
    apply raises_only_bind; [apply raises_only_modify_graph|]. intros _.
    apply raises_only_bind; [apply raises_only_get_graph|]. intros g2''.
    apply raises_only_bind; [apply raises_only_modify_graph|]. intros _.
    apply raises_only_bind; [|intros _; apply raises_only_ret].
    apply raises_only_call_method. intros g e He. right. exists g. exact He.
  - apply raises_only_raise. left.
    exists (length (outputs g1)), (length (inputs g2)).
    split; [apply Nat.eqb_neq; exact Hlen|reflexivity].
Qed.

Section RefinerRaises.
Context {L : GraphLibrary}.

Lemma raises_only_infer_step (P : exn -> Prop) (graph : ref) :
  raises_only P (infer_step graph).
Proof. intros s e He. destruct (infer_step_never_raises graph s e He). Qed.

Lemma raises_only_pass (graph : ref) : raises_only library_error (pass graph).
Proof.
  unfold pass.
  apply raises_only_bind; [intros s e [=]|]. intros _.
  apply raises_only_bind; [apply raises_only_count_nodes|]. intros count_before.
  apply raises_only_bind.
  { apply raises_only_call_method. intros g e He. exists g. left. exact He. }
  intros _. apply raises_only_bind.
  { apply raises_only_call_method. intros g e He. exists g. right. left. exact He. }
  intros _. apply raises_only_bind; [apply raises_only_infer_step|]. intros w.
  unfold finish_pass. apply raises_only_bind.
  { unfold fold_step. apply raises_only_try_except.
    - apply raises_only_call_method. intros g e He. exists g. right. right. exact He.
    - intros e He. apply raises_only_bind; [apply raises_only_logger|]. intros _.
      apply raises_only_raise. exact He. }
  intros _. apply raises_only_bind; [apply raises_only_count_nodes|]. intros count_after.
  destruct (count_before =? count_after); [apply raises_only_ret|].
  apply raises_only_bind; [apply raises_only_logger|]. intros _. apply raises_only_ret.
Qed.

Lemma raises_only_passes_loop (n : nat) :
  forall graph, raises_only library_error (passes_loop n graph).
Proof.
  induction n as [|n IH]; intros graph; cbn [passes_loop].
  - apply raises_only_ret.
  - apply raises_only_bind; [apply raises_only_pass|]. intros r.
    destruct r.2; [apply raises_only_ret|apply IH].
Qed.

End RefinerRaises.

(** X7. An exception that leaves [iteratively_infer_shapes] was raised by
    [cleanup], [toposort] or [fold_constants] on some graph: the function
    raises nothing of its own, and nothing raised by export, inference or
    import gets out. *)
Theorem refinement_raises {L : GraphLibrary} (graph : ref) (s : state) (e : exn) :
  (iteratively_infer_shapes graph s).1 = Raise e ->
  exists g : Graph,
    (gs_cleanup g).2 = Some e \/ (gs_toposort g).2 = Some e \/
    (gs_fold_constants g).2 = Some e.
Proof.
  revert s e. change (raises_only library_error (iteratively_infer_shapes graph)).
  unfold iteratively_infer_shapes.
  apply raises_only_bind; [apply raises_only_logger|]. intros _.
  apply raises_only_bind; [apply raises_only_passes_loop|]. intros _.
  apply raises_only_ret.
Qed.


(** ** Refinement without shape inference *)



Section RefinerInPlace.
Context {L : GraphLibrary}.
Hypothesis no_inference : forall m : Model, exists e : exn, infer_shapes m = inl e.





End RefinerInPlace.


(** ** The end of an iteration *)

Section RefinerBreak.
Context {L : GraphLibrary}.

Lemma finish_pass_Return_full (count_before : nat) (graph : ref)
    (s s' : state) (r : ref * bool) :
  finish_pass count_before graph s = (Return r, s') ->
  exists g',
    heap s' !! r.1 = Some g' /\
    r.2 = (count_before =? length (nodes g')) /\
    (r.2 = false ->
     exists l, log s' = (l ++ [mkLog DEBUG (folded_msg count_before (length (nodes g')))])%list).
Proof.
  unfold finish_pass. intros Hf.
  apply bind_Return in Hf as (u & s1 & _ & Hf).
  apply bind_Return in Hf as (count_after & s2 & Hc & Hf).
  apply count_nodes_Return in Hc as (-> & g' & Hg' & ->).
  exists g'. destruct (count_before =? length (nodes g')) eqn:Heq.
  - injection Hf as <- <-. split; [exact Hg'|]. split; [reflexivity|discriminate].
  - apply bind_Return in Hf as (u' & s3 & Hl & Hf).
    injection Hl as _ <-. injection Hf as <- <-.
    split; [exact Hg'|]. split; [reflexivity|]. intros _. exists (log s1). reflexivity.
Qed.

End RefinerBreak.

(** X10. An iteration that ends normally takes the [break] exactly when the
    graph it ends with has as many nodes as the graph it began with had
    before cleanup (so nodes removed by [cleanup] alone keep the loop going).
    When it does not, the last record logged is the debug record with the
    difference of the two counts, and the loop goes on, with what is left of
    its budget, on the graph the iteration ended with. *)
Theorem pass_break_iff {L : GraphLibrary} (graph : ref) (s s' : state) (r : ref * bool) :
  pass graph s = (Return r, s') ->
  exists g g' : Graph,
    heap s !! graph = Some g /\
    heap s' !! r.1 = Some g' /\
    (r.2 = true <-> length (nodes g) = length (nodes g')) /\
    (r.2 = false ->
     exists l, log s' =
       (l ++ [mkLog DEBUG (folded_msg (length (nodes g)) (length (nodes g')))])%list) /\
    (forall n, passes_loop (S n) graph s =
               if r.2 then (Return tt, s') else passes_loop n r.1 s').
Proof.
  intros Hp. pose proof Hp as Hp0. unfold pass in Hp.
  apply bind_Return in Hp as (u & s1 & Ht & Hp). injection Ht as _ <-.
  apply bind_Return in Hp as (count_before & s2 & Hc & Hp).
  apply count_nodes_Return in Hc as (-> & g & Hg & ->).
  apply bind_Return in Hp as (u1 & s3 & _ & Hp).
  apply bind_Return in Hp as (u2 & s4 & _ & Hp).
  apply bind_Return in Hp as (w & s5 & _ & Hp).
  apply finish_pass_Return_full in Hp as (g' & Hg' & Hr & Hlog).
  exists g, g'. split; [exact Hg|]. split; [exact Hg'|].
  split; [rewrite Hr; apply Nat.eqb_eq|]. split; [exact Hlog|].
  intros n. cbn [passes_loop]. rewrite (bind_Return_l _ _ _ _ _ Hp0).
  destruct r.2; reflexivity.
Qed.

(** ** What is logged *)

Lemma tidy_log_same {A} (c : M A) :
  (forall s, log (c s).2 = log s) -> tidy_log c.
Proof.
  intros Hc s. exists []. rewrite app_nil_r. split; [apply Hc|].
  left. constructor.
Qed.

Lemma tidy_log_debug (msg : string) : tidy_log (logger DEBUG msg).
Proof.
  intros s. exists [mkLog DEBUG msg]. split; [reflexivity|].
  left. repeat constructor.
Qed.

Lemma tidy_log_bind {A B} (c : M A) (k : A -> M B) :
  tidy_log c -> (forall a, tidy_log (k a)) -> tidy_log (bind c k).
Proof.
  intros Hc Hk s. destruct (Hc s) as (l & Hl & Hcase). unfold bind.
  destruct (c s) as [[a|e| |] s1] eqn:Hcs; cbn in *.
  - destruct Hcase as [Hdebug|(e & l' & [=] & _)].
    destruct (Hk a s1) as (l2 & Hl2 & Hcase2).
    exists (l ++ l2)%list. split; [rewrite Hl2, Hl, app_assoc; reflexivity|].
    destruct Hcase2 as [Hdebug2|(e & l2' & He & Hty & -> & Hdebug2)].
    + left. apply Forall_app. split; assumption.
    + right. exists e, (l ++ l2')%list. split; [exact He|]. split; [exact Hty|].
      split; [rewrite app_assoc; reflexivity|]. apply Forall_app. split; assumption.
  - exists l. split; [exact Hl|].
    destruct Hcase as [Hdebug|(e0 & l' & [= <-] & Hty & Hl' & Hdebug)].
    + left. exact Hdebug.
    + right. exists e, l'. repeat split; assumption.
  - exists l. split; [exact Hl|].
    destruct Hcase as [Hdebug|(e & l' & [=] & _)]. left. exact Hdebug.
  - exists l. split; [exact Hl|].
    destruct Hcase as [Hdebug|(e & l' & [=] & _)]. left. exact Hdebug.
Qed.

Lemma log_call_method (m : Graph -> Graph * option exn) (r : ref) (s : state) :
  log (call_method m r s).2 = log s.
Proof.
  unfold call_method, bind, get_graph. destruct (heap s !! r) as [g|]; [|reflexivity].
  cbn. destruct (m g).2; reflexivity.
Qed.

Lemma log_count_nodes (r : ref) (s : state) : log (count_nodes r s).2 = log s.
Proof.
  unfold count_nodes, bind, get_graph. destruct (heap s !! r); reflexivity.
Qed.

Section RefinerLog.
Context {L : GraphLibrary}.

Lemma tidy_log_infer_step (graph : ref) : tidy_log (infer_step graph).
Proof.
  intros s. unfold infer_step, try_except, reimport, bind, get_graph.
  destruct (heap s !! graph) as [g|]; cbn.
  - destruct (gs_export_onnx g) as [e|m]; cbn.
    { exists [mkLog DEBUG (inference_msg e)]. split; [reflexivity|].
      left. repeat constructor. }
    destruct (infer_shapes m) as [e|m']; cbn.
    { exists [mkLog DEBUG (inference_msg e)]. split; [reflexivity|].
      left. repeat constructor. }
    destruct (gs_import_onnx m') as [e|g']; cbn.
    { exists [mkLog DEBUG (inference_msg e)]. split; [reflexivity|].
      left. repeat constructor. }
    exists []. rewrite app_nil_r. split; [reflexivity|]. left. constructor.
  - exists []. rewrite app_nil_r. split; [reflexivity|]. left. constructor.
Qed.

(** The only place where an error record is written. *)
Lemma tidy_log_fold_step (graph : ref) : tidy_log (fold_step graph).
Proof.
  intros s. unfold fold_step, try_except.
  pose proof (log_call_method gs_fold_constants graph s) as Hlog.
  destruct (call_method gs_fold_constants graph s) as [[u|e| |] s1]; cbn in *;
    try (exists []; rewrite app_nil_r; split; [exact Hlog|left; constructor]).
  destruct (is_TypeError e) eqn:Hty; cbn.
  - exists [mkLog ERROR (fold_shapes_msg e)]. rewrite Hlog. split; [reflexivity|].
    right. exists e, []. repeat split; [exact Hty|constructor].
  - exists []. rewrite app_nil_r. split; [exact Hlog|left; constructor].
Qed.

Lemma tidy_log_pass (graph : ref) : tidy_log (pass graph).
Proof.
  unfold pass.
  apply tidy_log_bind; [apply tidy_log_same; reflexivity|]. intros _.
  apply tidy_log_bind; [apply tidy_log_same; apply log_count_nodes|]. intros count_before.
  apply tidy_log_bind; [apply tidy_log_same; apply log_call_method|]. intros _.
  apply tidy_log_bind; [apply tidy_log_same; apply log_call_method|]. intros _.
  apply tidy_log_bind; [apply tidy_log_infer_step|]. intros w.
  unfold finish_pass. apply tidy_log_bind; [apply tidy_log_fold_step|]. intros _.
  apply tidy_log_bind; [apply tidy_log_same; apply log_count_nodes|]. intros count_after.
  destruct (count_before =? count_after).
  - apply tidy_log_same. reflexivity.
  - apply tidy_log_bind; [apply tidy_log_debug|]. intros _.
    apply tidy_log_same. reflexivity.
Qed.

Lemma tidy_log_passes_loop (n : nat) : forall graph, tidy_log (passes_loop n graph).
Proof.
  induction n as [|n IH]; intros graph; cbn [passes_loop].
  - apply tidy_log_same. reflexivity.
  - apply tidy_log_bind; [apply tidy_log_pass|]. intros r.
    destruct r.2; [apply tidy_log_same; reflexivity|apply IH].
Qed.

End RefinerLog.

(** X11. What a call of [iteratively_infer_shapes] does to the log: it keeps
    what was there, adds the start message, and after it debug records only,
    with one exception: when the call ends with a [TypeError], the last record
    may be the error record about folding shapes, carrying that exception's
    text.  An error-level record is never written in a call that ends any
    other way. *)
Theorem refinement_log {L : GraphLibrary} (graph : ref) (s : state) :
  exists l : list log_record,
    log (iteratively_infer_shapes graph s).2 =
      (log s ++ mkLog DEBUG start_msg :: l)%list /\
    (Forall (fun r => log_level_of r = DEBUG) l \/
     exists (e : exn) (l' : list log_record),
       (iteratively_infer_shapes graph s).1 = Raise e /\
       is_TypeError e = true /\
       l = (l' ++ [mkLog ERROR (fold_shapes_msg e)])%list /\
       Forall (fun r => log_level_of r = DEBUG) l').
Proof.
  assert (Ht : tidy_log (passes_loop 3 graph ;;; ret VNone)).
  { apply tidy_log_bind; [apply tidy_log_passes_loop|]. intros _.
    apply tidy_log_same. reflexivity. }
  unfold iteratively_infer_shapes. unfold bind at 1. cbn [logger].
  set (s0 := mkState _ _ _).
  destruct (Ht s0) as (l & Hl & Hcase). exists l.
  split; [|exact Hcase].
  rewrite Hl. subst s0. cbn. rewrite <- app_assoc. reflexivity.
Qed.

(** ** More on the decay schedules *)

Section SchedulesMore.
Local Open Scope R_scope.

Lemma exp_call_value (self : ExpDecay) (decay : R) (step total_steps : Z) :
  total_steps <> 0%Z ->
  call self decay step total_steps =
  Return (decay * (1 - exp (- (IZR step / IZR total_steps) * beta self))).
Proof.
  intros Hne. unfold call, ExpDecay_call.
  rewrite (py_truediv_nonzero step total_steps Hne). reflexivity.
Qed.

End SchedulesMore.

(** X12. The exponential schedule depends on [step] and [total_steps] only
    through their ratio: multiplying both by the same non-zero integer does
    not change the result. *)
Theorem exp_decay_ratio (self : ExpDecay) (decay : R) (k step total_steps : Z) :
  k <> 0%Z ->
  total_steps <> 0%Z ->
  call self decay (k * step) (k * total_steps) = call self decay step total_steps.
Proof.
  intros Hk Ht. rewrite !exp_call_value by lia. do 4 f_equal.
  rewrite !mult_IZR. field. split; apply not_0_IZR; assumption.
Qed.

(** ** The schedules of the table *)


(** ** The schedules in double precision *)

(** Exact arithmetic has the outcomes and the order that the classes ask
    for. *)
Lemma exact_errors : Doubles.PyErrors (F := Doubles.exact) (M := Doubles.exact_math).
Proof.
  split.
  - intros a. reflexivity.
  - intros a b Hb. left. eexists. apply (py_truediv_nonzero a b Hb).
  - intros x. left. eexists. reflexivity.
Qed.



(** Binary64 has the outcomes, whatever the C library's [exp] is. *)
Lemma binary64_errors (libm_exp : spec_float -> spec_float) :
  Doubles.PyErrors (F := Doubles.binary64) (M := Doubles.binary64_math libm_exp).
Proof.
  split.
  - intros a. reflexivity.
  - intros a b Hb. cbn. unfold Doubles.int_truediv.
    apply Z.eqb_neq in Hb. rewrite Hb.
    destruct (a =? 0)%Z; [left; eexists; reflexivity|].
    destruct (SFdiv_core_binary 53 1024 (Z.abs a) 0 (Z.abs b) 0) as [[m e] l].
    destruct (binary_round_aux 53 1024 _ m e l);
      first [left; eexists; reflexivity | right; reflexivity].
  - intros x. cbn. unfold Doubles.checked_exp.
    destruct (libm_exp x), x; first [left; eexists; reflexivity | right; reflexivity].
Qed.

(** [<] on doubles relates no number to itself and no two numbers both
    ways. *)
Lemma binary64_lt_strict (x y : spec_float) :
  SFltb x x = false /\ (SFltb x y = true -> SFltb y x = false).
Proof.
  unfold SFltb. split.
  - destruct x as [[]|[]| |[] m e]; cbn; try reflexivity.
    + rewrite Z.compare_refl, Pos.compare_cont_refl. reflexivity.
    + rewrite Z.compare_refl, Pos.compare_cont_refl. reflexivity.
  - destruct x as [[]|[]| |[] m e], y as [[]|[]| |[] m' e']; cbn;
      try reflexivity; try discriminate.
    + rewrite (Z.compare_antisym e e').
      destruct (e ?= e')%Z eqn:He; cbn; try reflexivity; try discriminate.
      change (Pos.compare_cont Eq m' m) with (Pos.compare m' m).
      change (Pos.compare_cont Eq m m') with (Pos.compare m m').
      rewrite (Pos.compare_antisym m m').
      destruct (Pos.compare m m'); cbn; try reflexivity; discriminate.
    + rewrite (Z.compare_antisym e e').
      destruct (e ?= e')%Z eqn:He; cbn; try reflexivity; try discriminate.
      change (Pos.compare_cont Eq m' m) with (Pos.compare m' m).
      change (Pos.compare_cont Eq m m') with (Pos.compare m m').
      rewrite (Pos.compare_antisym m m').
      destruct (Pos.compare m m'); cbn; try reflexivity; discriminate.
Qed.





(** At exact arithmetic the schedules are the schedules read over the
    reals. *)
Lemma exact_schedules (beta decay : R) (step total_steps : Z) :
  Doubles.ConstantDecay_call (F := Doubles.exact) decay step total_steps =
    call mkConstantDecay decay step total_steps /\
  Doubles.ThresholdDecay_call (F := Doubles.exact) decay step total_steps =
    call mkThresholdDecay decay step total_steps /\
  Doubles.ExpDecay_call (M := Doubles.exact_math) beta decay step total_steps =
    call (mkExpDecay beta) decay step total_steps.
Proof.
  split; [reflexivity|]. split; [|reflexivity].
  unfold Doubles.ThresholdDecay_call, call, ThresholdDecay_call.
  change (Doubles.truediv (1 + step) (10 + step))
    with (py_truediv (1 + step) (10 + step)).
  destruct (py_truediv (1 + step) (10 + step)) as [q| | |]; try reflexivity.
  cbn. unfold py_min. destruct (Rlt_dec q decay); reflexivity.
Qed.

(** C7 (amended). In the interpreter's arithmetic the exponential schedule
    has four outcomes.  With [total_steps = 0] the division raises
    [ZeroDivisionError].  Otherwise, when the quotient [x = step / total_steps]
    is a double and [math.exp(-x * beta)] returns [e], the schedule returns
    [decay * (1 - e)]; when the quotient is too large for a double, or when
    [math.exp] overflows, it raises [OverflowError]. *)
Theorem exp_decay_outcomes {F : Doubles.PyFloat} {M : Doubles.PyMath}
    {E : Doubles.PyErrors} (beta decay : Doubles.float) (step total_steps : Z) :
  (total_steps <> 0%Z ->
   (exists x e : Doubles.float,
       Doubles.truediv step total_steps = Return x /\
       Doubles.math_exp (Doubles.mul (Doubles.neg x) beta) = Return e /\
       Doubles.ExpDecay_call beta decay step total_steps =
       Return (Doubles.mul decay (Doubles.sub Doubles.one e))) \/
   (Doubles.truediv step total_steps =
      Raise (mkExn OverflowError "integer division result too large for a float") /\
    Doubles.ExpDecay_call beta decay step total_steps =
      Raise (mkExn OverflowError "integer division result too large for a float")) \/
   (exists x : Doubles.float,
       Doubles.truediv step total_steps = Return x /\
       Doubles.math_exp (Doubles.mul (Doubles.neg x) beta) =
         Raise (mkExn OverflowError "math range error") /\
       Doubles.ExpDecay_call beta decay step total_steps =
         Raise (mkExn OverflowError "math range error"))) /\
  Doubles.ExpDecay_call beta decay step 0%Z =
    Raise (mkExn ZeroDivisionError "division by zero").
Proof.
  split.
  - intros Hne. unfold Doubles.ExpDecay_call.
    destruct (Doubles.truediv_nonzero step total_steps Hne) as [[x Hx]|Hover].
    + rewrite Hx. cbn [and_then].
      destruct (Doubles.math_exp_outcome (Doubles.mul (Doubles.neg x) beta))
        as [[e He]|Hrange].
      * left. exists x, e. rewrite He. auto.
      * right. right. exists x. rewrite Hrange. auto.
    + right. left. rewrite Hover. auto.
  - unfold Doubles.ExpDecay_call. rewrite Doubles.truediv_zero. reflexivity.
Qed.




(** ** The further properties on the sample inputs *)

Lemma append_graphs_self_grows_witness :
  (append_graphs (L := plain_library) 7 0 0 two_graphs).1 = OutOfFuel /\
  exists A', heap (append_graphs (L := plain_library) 7 0 0 two_graphs).2 !! 0 = Some A' /\
             length (nodes A') = length (nodes graph_a) + 7.
Proof.
  apply (append_graphs_self_grows (L := plain_library) 7 0 graph_a two_graphs).
  - reflexivity.
  - reflexivity.
  - cbn. lia.
Defined.

Lemma append_graphs_self_empty_witness :
  append_graphs (L := plain_library) 1 0 0 (one_graph graph_passthrough) =
  (Return (VGraph 0),
   set_heap (<[0 := mkGraph [identity_node t_y t_x] [t_x] []]>
               (heap (one_graph graph_passthrough))) (one_graph graph_passthrough)).
Proof.
  apply (append_graphs_self_empty (L := plain_library) 1 0 graph_passthrough
           (one_graph graph_passthrough)).
  - reflexivity.
  - reflexivity.
  - reflexivity.
  - lia.
Defined.

Lemma append_graphs_raises_witness :
  (exists n m : nat,
      n <> m /\
      mkExn ValueError "Number of outputs (2) does not match number of inputs (1)" =
      mkExn ValueError (mismatch_msg n m)) \/
  (exists g : Graph,
      (gs_toposort (GraphLibrary := plain_library) g).2 =
      Some (mkExn ValueError "Number of outputs (2) does not match number of inputs (1)")).
Proof.
  apply (append_graphs_raises (L := plain_library) 5 0 1 mismatched_graphs).
  vm_compute. reflexivity.
Defined.

Lemma refinement_raises_witness :
  exists g : Graph,
    (gs_cleanup (GraphLibrary := failing_fold_library ValueError) g).2 =
      Some (mkExn ValueError "fold failed") \/
    (gs_toposort (GraphLibrary := failing_fold_library ValueError) g).2 =
      Some (mkExn ValueError "fold failed") \/
    (gs_fold_constants (GraphLibrary := failing_fold_library ValueError) g).2 =
      Some (mkExn ValueError "fold failed").
Proof.
  apply (refinement_raises (L := failing_fold_library ValueError) 0 (one_graph graph_d)).
  vm_compute. reflexivity.
Defined.



Lemma pass_break_iff_witness :
  exists (r : ref * bool) (s' : state) (g g' : Graph),
    pass (L := dropping_library) 0 (one_graph graph_d) = (Return r, s') /\
    heap (one_graph graph_d) !! 0 = Some g /\
    heap s' !! r.1 = Some g' /\
    (r.2 = true <-> length (nodes g) = length (nodes g')).
Proof.
  eexists _, _.
  destruct (pass_break_iff (L := dropping_library) 0 (one_graph graph_d) _ _
              ltac:(vm_compute; reflexivity)) as (g & g' & Hg & Hg' & Hiff & _).
  exists g, g'. split; [vm_compute; reflexivity|].
  split; [exact Hg|]. split; [exact Hg'|exact Hiff].
Defined.

(** When the count grows the record shows a negative number. *)
Example folded_msg_negative : folded_msg 3 5 = "Folded -2 constants.".
Proof. vm_compute. reflexivity. Qed.

Lemma exp_decay_ratio_witness :
  call (mkExpDecay 10) 1%R (2 * 3)%Z (2 * 4)%Z = call (mkExpDecay 10) 1%R 3%Z 4%Z.
Proof.
  apply (exp_decay_ratio (mkExpDecay 10) 1%R 2%Z 3%Z 4%Z); lia.
Defined.

(** ** The by-reference theorems on the sample stores *)

Lemma append_graphs_unshared_witness :
  exists (s' : ByReference.store) (o1' : ByReference.graph_object),
    ByReference.append_graphs (L := plain_library) true true 5 0 1 unshared_graphs =
      (Return (VGraph 0), s') /\
    ByReference.graphs s' !! 0 = Some o1' /\
    ByReference.node_lists s' !! ByReference.nodes_at o1' =
      Some [n_relu; n_sigmoid; identity_node t_y t_u] /\
    length [n_relu; n_sigmoid; identity_node t_y t_u] = 1 + 1 + 1 /\
    ByReference.tensor_lists s' !! ByReference.outputs_at o1' = Some [t_v] /\
    (forall i out inp,
        [t_y] !! i = Some out -> [t_u] !! i = Some inp ->
        [n_relu; n_sigmoid; identity_node t_y t_u] !! (1 + 1 + i) =
        Some (mkNode "Identity"
                ("Identity_" ++ tensor_name out ++ "_" ++ tensor_name inp) [out] [inp])).
Proof.
  apply (append_graphs_unshared (L := plain_library) true true 5 0 1
           (ByReference.mkObject 0 0 1) (ByReference.mkObject 1 2 3)
           [n_relu] [n_sigmoid] [t_x] [t_y] [t_u] [t_v] unshared_graphs).
  - reflexivity.
  - reflexivity.
  - reflexivity.
  - reflexivity.
  - reflexivity.
  - reflexivity.
  - reflexivity.
  - reflexivity.
  - cbn. lia.
  - cbn. lia.
  - reflexivity.
  - cbn. lia.
  - reflexivity.
  - apply Permutation_refl.
Defined.

Lemma append_graphs_toposort_failure_witness :
  exists (s' : ByReference.store) (o1' : ByReference.graph_object),
    ByReference.append_graphs (L := cyclic_library) true true 5 0 1 unshared_graphs =
      (Raise (mkExn RuntimeError "Cycle detected in graph!"), s') /\
    ByReference.graphs s' !! 0 = Some o1' /\
    ByReference.node_lists s' !! ByReference.nodes_at o1' =
      Some [n_relu; n_sigmoid; identity_node t_y t_u] /\
    ByReference.tensor_lists s' !! 1 = Some [] /\
    ByReference.tensor_lists s' !! ByReference.outputs_at o1' = Some [t_v].
Proof.
  apply (append_graphs_toposort_failure (L := cyclic_library) true true 5 0 1
           (ByReference.mkObject 0 0 1) (ByReference.mkObject 1 2 3)
           [n_relu] [n_sigmoid] [t_x] [t_y] [t_u] [t_v] unshared_graphs
           (mkExn RuntimeError "Cycle detected in graph!")).
  - reflexivity.
  - reflexivity.
  - reflexivity.
  - reflexivity.
  - reflexivity.
  - reflexivity.
  - reflexivity.
  - reflexivity.
  - cbn. lia.
  - cbn. lia.
  - reflexivity.
  - cbn. lia.
  - reflexivity.
Defined.

Lemma append_graphs_shared_nodes_witness :
  exists (s' : ByReference.store) (ns' : list Node),
    ByReference.append_graphs (L := plain_library) true true 7 0 1 shared_nodes =
      (OutOfFuel, s') /\
    ByReference.node_lists s' !! 0 = Some ns' /\
    length ns' = 1 + 7.
Proof.
  apply (append_graphs_shared_nodes (L := plain_library) true true 7 0 1
           (ByReference.mkObject 0 0 1) (ByReference.mkObject 0 2 3)
           [n_relu] [t_y] [t_u] shared_nodes).
  - reflexivity.
  - reflexivity.
  - reflexivity.
  - reflexivity.
  - reflexivity.
  - reflexivity.
  - reflexivity.
  - cbn. lia.
Defined.

Lemma append_graphs_twice_witness :
  exists (s1 s2 : ByReference.store) (o1' : ByReference.graph_object),
    ByReference.append_graphs (L := plain_library) true true 5 0 1 unshared_three =
      (Return (VGraph 0), s1) /\
    ByReference.append_graphs (L := plain_library) true true 5 0 2 s1 =
      (Return (VGraph 0), s2) /\
    ByReference.graphs s2 !! 0 = Some o1' /\
    ByReference.node_lists s2 !! ByReference.nodes_at o1' =
      Some [n_relu; n_sigmoid; identity_node t_y t_u; n_tanh; identity_node t_v t_y] /\
    length [n_relu; n_sigmoid; identity_node t_y t_u; n_tanh; identity_node t_v t_y] =
      1 + 1 + 1 + 1 + 1 /\
    ByReference.tensor_lists s2 !! ByReference.outputs_at o1' = Some [t_w].
Proof.
  apply (append_graphs_twice (L := plain_library) true true 5 0 1 2
           (ByReference.mkObject 0 0 1) (ByReference.mkObject 1 2 3)
           (ByReference.mkObject 2 4 5)
           [n_relu] [n_sigmoid] [n_tanh] [t_x] [t_y] [t_u] [t_v] [t_y] [t_w]
           unshared_three).
  - reflexivity.
  - reflexivity.
  - reflexivity.
  - reflexivity.
  - reflexivity.
  - reflexivity.
  - reflexivity.
  - reflexivity.
  - reflexivity.
  - reflexivity.
  - reflexivity.
  - reflexivity.
  - cbn. lia.
  - cbn. lia.
  - cbn. lia.
  - cbn. lia.
  - cbn. lia.
  - cbn. lia.
  - cbn. lia.
  - cbn. lia.
  - reflexivity.
  - reflexivity.
  - cbn. lia.
  - cbn. lia.
  - reflexivity.
  - apply Permutation_refl.
  - reflexivity.
  - apply Permutation_refl.
Defined.

(** ** The schedules on sample inputs *)

(** A step count of 10^400 on a total of 1: the quotient is too large for a
    double, and the exponential schedule returns nothing, whatever the C
    library's [exp] is. *)
Lemma exp_decay_overflow :
  ~ exists (libm_exp : spec_float -> spec_float) (v : spec_float),
      Doubles.ExpDecay_call (M := Doubles.binary64_math libm_exp)
        (Doubles.float_of_int 10) (Doubles.float_of_int 1) (10 ^ 400) 1 = Return v.
Proof.
  intros (libm_exp & v & Hv). vm_compute in Hv. discriminate Hv.
Qed.


(** The schedules in binary64 at a few inputs: 0.1 at step 0 and 0.9 at step
    999 for [decay = 0.9], the pole at step -10, the quotient 10.0 at step
    -11. *)
Lemma binary64_samples :
  let nine_tenths := S754_finite false 8106479329266893 (-53) in
  let tenth := S754_finite false 7205759403792794 (-56) in
  Doubles.truediv (PyFloat := Doubles.binary64) 9 10 = Return nine_tenths /\
  Doubles.ThresholdDecay_call (F := Doubles.binary64) nine_tenths 0 100 = Return tenth /\
  Doubles.ThresholdDecay_call (F := Doubles.binary64) nine_tenths 999 100 =
    Return nine_tenths /\
  Doubles.ThresholdDecay_call (F := Doubles.binary64) nine_tenths (-10) 100 =
    Raise (mkExn ZeroDivisionError "division by zero") /\
  Doubles.ThresholdDecay_call (F := Doubles.binary64) (Doubles.float_of_int 20) (-11) 100 =
    Return (Doubles.float_of_int 10) /\
  Doubles.ConstantDecay_call (F := Doubles.binary64) nine_tenths 5 100 = Return nine_tenths.
Proof.
  repeat split; vm_compute; reflexivity.
Qed.

Lemma exp_decay_outcomes_witness :
  (((100 <> 0)%Z ->
    (exists x e : R,
        py_truediv 100 100 = Return x /\
        Return (exp (- x * 10)) = Return e /\
        Doubles.ExpDecay_call (M := Doubles.exact_math) 10%R 1%R 100 100 =
        Return (1 * (1 - e))%R) \/
    (py_truediv 100 100 =
       Raise (mkExn OverflowError "integer division result too large for a float") /\
     Doubles.ExpDecay_call (M := Doubles.exact_math) 10%R 1%R 100 100 =
       Raise (mkExn OverflowError "integer division result too large for a float")) \/
    (exists x : R,
        py_truediv 100 100 = Return x /\
        Return (exp (- x * 10)) = Raise (mkExn OverflowError "math range error") /\
        Doubles.ExpDecay_call (M := Doubles.exact_math) 10%R 1%R 100 100 =
          Raise (mkExn OverflowError "math range error"))) /\
   Doubles.ExpDecay_call (M := Doubles.exact_math) 10%R 1%R 100 0 =
     Raise (mkExn ZeroDivisionError "division by zero")) /\
  (forall libm_exp : spec_float -> spec_float,
      let ten := Doubles.float_of_int 10 in
      let one := Doubles.float_of_int 1 in
      ((100 <> 0)%Z ->
       (exists x e : spec_float,
           Doubles.int_truediv 100 100 = Return x /\
           Doubles.checked_exp libm_exp (SFmul 53 1024 (SFopp x) ten) = Return e /\
           Doubles.ExpDecay_call (M := Doubles.binary64_math libm_exp) ten one 100 100 =
           Return (SFmul 53 1024 one (SFsub 53 1024 one e))) \/
       (Doubles.int_truediv 100 100 =
          Raise (mkExn OverflowError "integer division result too large for a float") /\
        Doubles.ExpDecay_call (M := Doubles.binary64_math libm_exp) ten one 100 100 =
          Raise (mkExn OverflowError "integer division result too large for a float")) \/
       (exists x : spec_float,
           Doubles.int_truediv 100 100 = Return x /\
           Doubles.checked_exp libm_exp (SFmul 53 1024 (SFopp x) ten) =
             Raise (mkExn OverflowError "math range error") /\
           Doubles.ExpDecay_call (M := Doubles.binary64_math libm_exp) ten one 100 100 =
             Raise (mkExn OverflowError "math range error"))) /\
      Doubles.ExpDecay_call (M := Doubles.binary64_math libm_exp) ten one 100 0 =
        Raise (mkExn ZeroDivisionError "division by zero")).
Proof.
  split.
  - exact (exp_decay_outcomes (E := exact_errors) 10%R 1%R 100%Z 100%Z).
  - intros libm_exp.
    exact (exp_decay_outcomes (E := binary64_errors libm_exp)
             (Doubles.float_of_int 10) (Doubles.float_of_int 1) 100%Z 100%Z).
Defined.



